(** * HydroZynq data-acquisition firmware: command handler and ping scheduler

    Shallow embedding of [software/app/main_bin.c] (with the constants of
    [software/src/system_params.h]) and the properties of its command
    handler and of its acquisition loop.

    Conventions.
    - C integers are [Z]; where the code can wrap, the wrap is written out
      ([u32], [u64]).
    - A C character buffer is a [list ascii]; a [char *] into it is an offset.
    - Hardware and library collaborators whose code is not part of
      [main_bin.c] (DMA, DSP routines, UDP, the tick counter) answer through
      an explicit environment record; every call is logged in a trace. *)

From Stdlib Require Import ZArith List Lia Bool Ascii String SpecFloat.
Import ListNotations.

Open Scope Z_scope.

(** ** Machine integers *)

(** [uint32_t], [unsigned int] and, on the 32-bit ARM core of the Zynq,
    [size_t]. *)
Definition u32 (z : Z) : Z := z mod 2 ^ 32.

(** Modelled from the spec: [tick_t] is declared in [types.h], which is not
    among the sources; the tick clock offers "no wraparound within the
    operational window (at least 2^63 ticks)", so a tick is an unsigned
    64-bit integer. *)
Definition u64 (z : Z) : Z := z mod 2 ^ 64.

(** Conversion to [int32_t] (two's complement). *)
Definition i32 (z : Z) : Z := (z + 2 ^ 31) mod 2 ^ 32 - 2 ^ 31.

(** The four bytes [memcpy] copies out of an [int32_t] (little endian). *)
Definition le32 (v : Z) : list Z :=
  map (fun k => (u32 v / 2 ^ (8 * k)) mod 256) [0; 1; 2; 3].

(** ** Double-precision arithmetic

    [go] computes sample counts as [ms / 1000.0 * sampling_frequency] in
    [double] and converts the product to [uint32_t].  The operations are the
    IEEE 754 binary64 ones of the Standard Library's specification. *)

Definition dbl_of_Z (z : Z) : spec_float := binary_normalize 53 1024 z 0 false.

(** Conversion to an integer truncates towards zero. *)
Definition dbl_to_Z (x : spec_float) : Z :=
  match x with
  | S754_finite s m e =>
      let v := if 0 <=? e then Zpos m * 2 ^ e else Zpos m / 2 ^ (- e) in
      if s then - v else v
  | _ => 0
  end.

(** [sample_duration_ms / 1000.0 * sampling_frequency] as a [uint32_t]. *)
Definition duration_samples (sample_duration_ms sampling_frequency : Z) : Z :=
  dbl_to_Z (SFmul 53 1024
              (SFdiv 53 1024 (dbl_of_Z sample_duration_ms) (dbl_of_Z 1000))
              (dbl_of_Z sampling_frequency)).

(** ** System parameters *)

Module SystemParams.

(** [system_params.h] *)
Definition ARM_CLK_PLL : Z := 666667000.
Definition CPU_CLOCK_HZ : Z := ARM_CLK_PLL / 2.
Definition SAMPLES_PER_PACKET : Z := 128.

(** [main_bin.c], line 47: [#define MAX_SAMPLES 45000 * 2200].  The macro
    has no parentheses; at each of its uses ([MAX_SAMPLES % x],
    [MAX_SAMPLES * 2], [x > MAX_SAMPLES]) the expansion groups as the
    product first, so one constant serves. *)
Definition MAX_SAMPLES : Z := 45000 * 2200.

(** [main_bin.c], line 57: [correlation_t correlations[50000]]. *)
Definition CORRELATIONS_LEN : Z := 50000.

(** Modelled from the spec: [FPGA_CLK] and [INITIAL_ADC_THRESHOLD] are used
    by [go] but defined in a header that is not among the sources; the
    initial parameters are "sample_clk_div = 10 (5 MHz at 100 MHz FPGA)"
    and "ping_threshold = 1500". *)
Definition FPGA_CLK : Z := 100000000.
Definition INITIAL_ADC_THRESHOLD : Z := 1500.

End SystemParams.
Import SystemParams.

(** ** Tick clock conversions *)

(** Modelled from the spec: [time_util] is not among the sources.  The tick
    counter runs at [CPU_CLOCK_HZ] ticks per second and the conversions are
    the integer ones. *)
Definition ms_to_ticks (ms : Z) : Z := ms * CPU_CLOCK_HZ / 1000.
Definition micros_to_ticks (us : Z) : Z := us * CPU_CLOCK_HZ / 1000000.
Definition ticks_to_ms (t : Z) : Z := t * 1000 / CPU_CLOCK_HZ.

(** ** Program state *)

(** [HydroZynqParams] (declared in a header that is not among the sources):
    the fields [main_bin.c] reads and writes. *)
Record HydroZynqParams : Type := mkParams {
  sample_clk_div : Z;
  samples_per_packet : Z;
  ping_threshold : Z;
  pre_ping_duration : Z;
  post_ping_duration : Z;
  filter : bool
}.

(** The file-scope variables [params], [debug_stream] and [sync]. *)
Record globals : Type := mkGlobals {
  params : HydroZynqParams;
  debug_stream : bool;
  sync : bool
}.

Definition set_ping_threshold (v : Z) (p : HydroZynqParams) : HydroZynqParams :=
  mkParams (sample_clk_div p) (samples_per_packet p) v
           (pre_ping_duration p) (post_ping_duration p) (filter p).

Definition set_pre_ping_duration (v : Z) (p : HydroZynqParams) : HydroZynqParams :=
  mkParams (sample_clk_div p) (samples_per_packet p) (ping_threshold p)
           v (post_ping_duration p) (filter p).

Definition set_post_ping_duration (v : Z) (p : HydroZynqParams) : HydroZynqParams :=
  mkParams (sample_clk_div p) (samples_per_packet p) (ping_threshold p)
           (pre_ping_duration p) v (filter p).

Definition set_filter (b : bool) (p : HydroZynqParams) : HydroZynqParams :=
  mkParams (sample_clk_div p) (samples_per_packet p) (ping_threshold p)
           (pre_ping_duration p) (post_ping_duration p) b.

Definition with_params (p : HydroZynqParams) (g : globals) : globals :=
  mkGlobals p (debug_stream g) (sync g).

Definition with_debug_stream (b : bool) (g : globals) : globals :=
  mkGlobals (params g) b (sync g).

Definition with_sync (b : bool) (g : globals) : globals :=
  mkGlobals (params g) (debug_stream g) b.

(** ** Character buffers *)

Module CBuf.

Definition NUL : ascii := Ascii.zero.

(** [data[i]] *)
Definition char_at (data : list ascii) (i : nat) : ascii := nth i data NUL.

(** [data[i] = c]; the handler only writes inside the copied payload. *)
Fixpoint poke (data : list ascii) (i : nat) (c : ascii) : list ascii :=
  match data, i with
  | [], _ => []
  | _ :: rest, O => c :: rest
  | d :: rest, S i' => d :: poke rest i' c
  end.

(** The C string that starts at the head of [data]. *)
Fixpoint cstr (data : list ascii) : list ascii :=
  match data with
  | [] => []
  | c :: rest => if Ascii.eqb c NUL then [] else c :: cstr rest
  end.

(** The C string a pointer [data + off] denotes. *)
Definition cstr_at (data : list ascii) (off : nat) : list ascii :=
  cstr (skipn off data).

Definition strlen (data : list ascii) (off : nat) : nat :=
  List.length (cstr_at data off).

Fixpoint chars_eqb (a b : list ascii) : bool :=
  match a, b with
  | [], [] => true
  | x :: a', y :: b' => Ascii.eqb x y && chars_eqb a' b'
  | _, _ => false
  end.

(** [strcmp(data + off, lit) == 0] *)
Definition strcmp_eq (data : list ascii) (off : nat) (lit : string) : bool :=
  chars_eqb (cstr_at data off) (list_ascii_of_string lit).

End CBuf.
Import CBuf.

(** ** [sscanf(value, "%u", &x)] *)

Module Scanf.

Inductive scan_result : Type :=
| ScanEOF                (* input ends before any conversion: returns EOF, -1 *)
| ScanNoMatch            (* matching failure: returns 0 *)
| ScanOK (v : Z).        (* one item converted and stored: returns 1 *)

Definition isspace (c : ascii) : bool :=
  let n := nat_of_ascii c in
  (Nat.eqb n 32 || (Nat.leb 9 n && Nat.leb n 13))%bool.

Definition digit_of (c : ascii) : option Z :=
  let n := nat_of_ascii c in
  if (Nat.leb 48 n && Nat.leb n 57)%bool then Some (Z.of_nat n - 48) else None.

Fixpoint skip_space (s : list ascii) : list ascii :=
  match s with
  | c :: rest => if isspace c then skip_space rest else s
  | [] => []
  end.

(** Accumulate the longest run of decimal digits; the flag tells whether
    at least one digit was consumed. *)
Fixpoint scan_digits (s : list ascii) (acc : Z) (any : bool) : Z * bool :=
  match s with
  | c :: rest =>
      match digit_of c with
      | Some d => scan_digits rest (acc * 10 + d) true
      | None => (acc, any)
      end
  | [] => (acc, any)
  end.

(** The conversion follows [strtoul] in base 10: leading white space, an
    optional sign, then digits.  A value that does not fit [unsigned int]
    is undefined in C; the model keeps its low 32 bits. *)
Definition sscanf_u (s : list ascii) : scan_result :=
  match skip_space s with
  | [] => ScanEOF
  | c :: rest =>
      let '(neg, body) :=
        if Ascii.eqb c "-" then (true, rest)
        else if Ascii.eqb c "+" then (false, rest)
        else (false, c :: rest) in
      let '(v, any) := scan_digits body 0 false in
      if any then ScanOK (u32 (if neg then - v else v)) else ScanNoMatch
  end.

End Scanf.
Import Scanf.

(** ** [parse_packet] *)

Module Parse.

(** [KeyValuePair]: both members point into the packet buffer. *)
Record KeyValuePair : Type := mkPair { key : nat; value : nat }.

(** First loop of [parse_packet] (lines 119-133), entered at index [i]
    with [n] iterations left before [i < len] fails.  [keys] are the
    [key] members stored so far, so [*num_pairs] is their number.  The
    second test reads [data[i]] again after the store of line 124. *)
Fixpoint split_tokens (n : nat) (i : nat) (max_pairs : nat)
         (data : list ascii) (last_start : nat) (keys : list nat)
  : list ascii * list nat :=
  match n with
  | O => (data, keys)
  | S n' =>
      if (List.length keys <? max_pairs)%nat then
        let c := char_at data i in
        let '(data1, keys1, last1) :=
          if (Ascii.eqb c "," || Ascii.eqb c NUL)%bool
          then (poke data i NUL, keys ++ [last_start], S i)
          else (data, keys, last_start) in
        if Ascii.eqb (char_at data1 i) NUL
        then (data1, keys1)
        else split_tokens n' (S i) max_pairs data1 last1 keys1
      else (data, keys)
  end.

(** Inner loop of lines 138-146 for the pair whose key starts at [k]:
    [n] bounds the iterations still allowed by [j < strlen(key)]. *)
Fixpoint find_colon (n : nat) (j : nat) (data : list ascii) (k : nat)
  : list ascii * option nat :=
  match n with
  | O => (data, None)
  | S n' =>
      if (j <? strlen data k)%nat then
        if Ascii.eqb (char_at data (k + j)) ":"
        then (poke data (k + j) NUL, Some (k + j + 1)%nat)
        else find_colon n' (S j) data k
      else (data, None)
  end.

(** Second loop (lines 135-149): the first pair without a value makes
    [parse_packet] fail. *)
Fixpoint split_values (keys : list nat) (data : list ascii)
  : option (list ascii * list KeyValuePair) :=
  match keys with
  | [] => Some (data, [])
  | k :: rest =>
      match find_colon (strlen data k) 0 data k with
      | (data1, Some v) =>
          match split_values rest data1 with
          | Some (data2, pairs) => Some (data2, mkPair k v :: pairs)
          | None => None
          end
      | (_, None) => None
      end
  end.

(** [parse_packet(data, len, pairs, max_pairs, &num_pairs)]: [None] is
    [fail]; on success the buffer as rewritten and the pairs found. *)
Definition parse_packet (data : list ascii) (len : nat) (max_pairs : nat)
  : option (list ascii * list KeyValuePair) :=
  let '(data1, keys) := split_tokens len 0 max_pairs data 0%nat [] in
  split_values keys data1.

End Parse.
Import Parse.

(** ** [receive_command] *)

Module Command.

Inductive cmd_status : Type :=
| PacketTooLong     (* lines 165-171 *)
| ParseFailed       (* line 177 *)
| ValueRejected     (* an [AbortIfNot(sscanf(...), )] returned *)
| Handled.          (* the loop over the pairs ran to its end *)

Record cmd_result : Type := mkResult {
  status : cmd_status;
  after : globals;
  reboot : bool       (* the [reset] branch was taken *)
}.

(** One iteration of the loop of lines 179-230 on the pair [kv].  [junk]
    is the indeterminate content of the local [threshold], which line 184
    leaves uninitialised; the other locals start at 0.  [None]: the
    handler returned at a rejected value. *)
Definition process_pair (junk : Z) (data : list ascii) (kv : KeyValuePair)
           (st : globals * bool) : option (globals * bool) :=
  let '(g, rb) := st in
  let scanned (init : Z) : option Z :=
    match sscanf_u (cstr_at data (value kv)) with
    | ScanNoMatch => None
    | ScanEOF => Some init
    | ScanOK v => Some v
    end in
  if strcmp_eq data (key kv) "threshold" then
    match scanned junk with
    | None => None
    | Some threshold =>
        Some (with_sync false (with_params (set_ping_threshold threshold (params g)) g), rb)
    end
  else if strcmp_eq data (key kv) "filter" then
    match scanned 0 with
    | None => None
    | Some debug =>
        Some (with_params (set_filter (negb (debug =? 0)) (params g)) g, rb)
    end
  else if strcmp_eq data (key kv) "debug" then
    match scanned 0 with
    | None => None
    | Some debug => Some (with_debug_stream (negb (debug =? 0)) g, rb)
    end
  else if strcmp_eq data (key kv) "pre_ping_duration_us" then
    match scanned 0 with
    | None => None
    | Some duration =>
        Some (with_params (set_pre_ping_duration (micros_to_ticks duration) (params g)) g, rb)
    end
  else if strcmp_eq data (key kv) "post_ping_duration_us" then
    match scanned 0 with
    | None => None
    | Some duration =>
        Some (with_params (set_post_ping_duration (micros_to_ticks duration) (params g)) g, rb)
    end
  else if strcmp_eq data (key kv) "reset" then Some (g, true)
  else Some (g, rb).

Fixpoint process_pairs (junk : Z) (data : list ascii) (pairs : list KeyValuePair)
         (st : globals * bool) : cmd_result :=
  match pairs with
  | [] => mkResult Handled (fst st) (snd st)
  | kv :: rest =>
      match process_pair junk data kv st with
      | Some st' => process_pairs junk data rest st'
      | None => mkResult ValueRejected (fst st) (snd st)
      end
  end.

(** [sizeof(data)] for [char data[1024]]. *)
Definition DATA_SIZE : Z := 1024.

(** [receive_command] on a datagram whose [p->payload] is [payload]
    ([p->len] is its length). *)
Definition receive_command (junk : Z) (g : globals) (payload : list ascii)
  : cmd_result :=
  let len := List.length payload in
  if Z.of_nat len >? DATA_SIZE - 1 then mkResult PacketTooLong g false
  else
    let data := payload ++ [NUL] in
    match parse_packet data (len + 1) 10 with
    | None => mkResult ParseFailed g false
    | Some (data', pairs) => process_pairs junk data' pairs (g, false)
    end.

End Command.
Import Command.

Definition packet (s : string) : list ascii := list_ascii_of_string s.

(** ** The acquisition loop of [go] *)

Module Scheduler.

(** Calls that leave [main_bin.c], in the order they are made. *)
Inductive event : Type :=
| EvPump                                  (* dispatch_network_stack *)
| EvReboot                                (* the reset of line 228 *)
| EvAcquireSync (samples_to_take : Z)
| EvSilentRequest (msg : list Z)          (* send_udp on silent_request_socket *)
| EvRecord (num_samples : Z)
| EvNormalize (num_samples : Z)
| EvFilter (num_samples : Z)
| EvTruncate (num_samples : Z)
| EvCrossCorrelate (start len cap : Z)
| EvSendResult                            (* result_socket *)
| EvSendXcorr (num_correlations : Z)      (* xcorr_stream_socket *)
| EvSendData (start len : Z).             (* data_stream_socket *)

(** What [acquire_sync] hands back through its pointers, and the datagrams
    the pump of line 397 delivers right after it. *)
Record sync_answer : Type := mkSyncAnswer {
  sa_ok : bool;
  sa_found : bool;
  sa_tick : Z;
  sa_pump : list (list ascii)
}.

(** The environment of one pass through the loop body. *)
Record cycle_env : Type := mkEnv {
  clk : nat -> Z;                   (* k-th reading of the tick counter *)
  junk : Z;                         (* uninitialised local of the handler *)
  adc_samples_per_packet : Z;       (* adc.regs->samples_per_packet *)
  pump0 : list (list ascii);        (* datagrams delivered at line 367 *)
  sync_answers : list sync_answer;
  silent_ok : bool;
  record_ok : bool;
  normalize_ok : bool;
  filter_ok : bool;
  truncate_ok : bool;
  located : bool;
  start_index : Z;
  end_index : Z;
  cross_correlate_ok : bool;
  num_correlations : Z;
  send_result_ok : bool;
  send_xcorr_ok : bool;
  send_data_ok : bool
}.

Record machine : Type := mkMachine {
  glob : globals;
  previous_ping_tick : Z;
  reads : nat;                      (* readings of the counter so far *)
  trace : list event
}.

Inductive outcome (A : Type) : Type :=
| Ok (a : A)
| Fail          (* an [AbortIfNot(..., fail)] made [go] return *)
| Spin.         (* a loop is still running when the fuel ends *)
Arguments Ok {A} a.
Arguments Fail {A}.
Arguments Spin {A}.

Definition M (A : Type) : Type := machine -> outcome A * machine.

Definition ret {A} (a : A) : M A := fun m => (Ok a, m).

Definition bind {A B} (c : M A) (k : A -> M B) : M B :=
  fun m =>
    match c m with
    | (Ok a, m') => k a m'
    | (Fail, m') => (Fail, m')
    | (Spin, m') => (Spin, m')
    end.

Notation "x <- c ;; k" := (bind c (fun x => k))
  (at level 61, c at next level, right associativity).
Notation "c ;; k" := (bind c (fun _ => k))
  (at level 61, right associativity).

Definition spin {A} : M A := fun m => (Spin, m).

Definition AbortIfNot (cond : bool) : M unit :=
  fun m => if cond then (Ok tt, m) else (Fail, m).

Definition emit (e : event) : M unit :=
  fun m => (Ok tt, mkMachine (glob m) (previous_ping_tick m) (reads m) (trace m ++ [e])).

Definition get_glob : M globals := fun m => (Ok (glob m), m).

Definition put_glob (g : globals) : M unit :=
  fun m => (Ok tt, mkMachine g (previous_ping_tick m) (reads m) (trace m)).

Definition get_previous_ping_tick : M Z := fun m => (Ok (previous_ping_tick m), m).

Definition put_previous_ping_tick (t : Z) : M unit :=
  fun m => (Ok tt, mkMachine (glob m) t (reads m) (trace m)).

Section WithEnv.

Variable env : cycle_env.

Definition get_system_time : M Z :=
  fun m => (Ok (clk env (reads m)),
            mkMachine (glob m) (previous_ping_tick m) (S (reads m)) (trace m)).

(** The handler runs once per datagram the pump delivers. *)
Fixpoint deliver (pkts : list (list ascii)) : M unit :=
  match pkts with
  | [] => ret tt
  | p :: rest =>
      g <- get_glob ;;
      let r := receive_command (junk env) g p in
      put_glob (after r) ;;
      (if reboot r then emit EvReboot else ret tt) ;;
      deliver rest
  end.

Definition dispatch_network_stack (pkts : list (list ascii)) : M unit :=
  emit EvPump ;; deliver pkts.

(** Lines 377-403: [while (!found && !debug_stream)]. *)
Fixpoint sync_loop (sampling_frequency : Z) (answers : list sync_answer)
         (found : bool) : M bool :=
  fun m =>
    if (negb found && negb (debug_stream (glob m)))%bool then
      (emit (EvAcquireSync (duration_samples 2100 sampling_frequency)) ;;
       match answers with
       | [] => spin
       | a :: rest =>
           AbortIfNot (sa_ok a) ;;
           put_previous_ping_tick (sa_tick a) ;;
           dispatch_network_stack (sa_pump a) ;;
           sync_loop sampling_frequency rest (sa_found a)
       end) m
    else (Ok found, m).

(** Lines 372-410. *)
Definition sync_phase (sampling_frequency : Z) : M unit :=
  g <- get_glob ;;
  if (negb (sync g) && negb (debug_stream g))%bool then
    found <- sync_loop sampling_frequency (sync_answers env) false ;;
    if found then
      g' <- get_glob ;; put_glob (with_sync true g')
    else ret tt
  else ret tt.

(** Lines 419-422. *)
Fixpoint fast_forward (fuel : nat) (next_ping_tick : Z) : M Z :=
  match fuel with
  | O => spin
  | S fuel' =>
      now <- get_system_time ;;
      if now >? u64 (next_ping_tick - ms_to_ticks 50)
      then fast_forward fuel' (u64 (next_ping_tick + ms_to_ticks 2000))
      else ret next_ping_tick
  end.

(** [request_thruster_shutdown], lines 242-255. *)
Definition request_thruster_shutdown (future_ticks duration : Z) : M unit :=
  now <- get_system_time ;;
  let when_ms := i32 (ticks_to_ms (u64 (future_ticks - now))) in
  let duration_ms := i32 (ticks_to_ms duration) in
  emit (EvSilentRequest (le32 when_ms ++ le32 duration_ms)) ;;
  AbortIfNot (silent_ok env).

(** Line 435. *)
Fixpoint busy_wait (fuel : nat) (next_ping_tick : Z) : M unit :=
  match fuel with
  | O => spin
  | S fuel' =>
      now <- get_system_time ;;
      if now <? u64 (next_ping_tick - ms_to_ticks 50)
      then busy_wait fuel' next_ping_tick
      else ret tt
  end.

(** Lines 416-436. *)
Definition predict_phase (fuel : nat) : M unit :=
  g <- get_glob ;;
  if negb (debug_stream g) then
    previous <- get_previous_ping_tick ;;
    next_ping_tick <- fast_forward fuel previous ;;
    request_thruster_shutdown (u64 (next_ping_tick - ms_to_ticks 50))
                              (ms_to_ticks 100) ;;
    busy_wait fuel next_ping_tick
  else ret tt.

(** Lines 441-451: the length handed to [record]. *)
Definition record_length (p : HydroZynqParams) (debug : bool)
           (sampling_frequency : Z) : Z :=
  let sample_duration_ms := if debug then 2100 else 300 in
  let num_samples := duration_samples sample_duration_ms sampling_frequency in
  let num_samples :=
    if num_samples mod samples_per_packet p =? 0 then num_samples
    else u32 (num_samples
              + (samples_per_packet p - num_samples mod samples_per_packet p)) in
  if num_samples >? MAX_SAMPLES
  then MAX_SAMPLES - MAX_SAMPLES mod adc_samples_per_packet env
  else num_samples.

(** Line 494: [start_index * (CPU_CLOCK_HZ / sampling_frequency)] in
    32-bit unsigned arithmetic. *)
Definition ping_offset (start sampling_frequency : Z) : Z :=
  u32 (start * u32 (CPU_CLOCK_HZ / sampling_frequency)).

(** Lines 483-527, after the debug branch. *)
Definition process (num_samples sampling_frequency sample_start_tick : Z) : M unit :=
  emit (EvTruncate num_samples) ;;
  AbortIfNot (truncate_ok env) ;;
  g <- get_glob ;;
  put_glob (with_sync (located env) g) ;;
  if negb (located env) then ret tt
  else
    let offset := ping_offset (start_index env) sampling_frequency in
    put_previous_ping_tick (u64 (sample_start_tick + offset)) ;;
    AbortIfNot (end_index env >? start_index env) ;;
    let ping_length := end_index env - start_index env in
    _ <- get_system_time ;;
    emit (EvCrossCorrelate (start_index env) ping_length (MAX_SAMPLES * 2)) ;;
    AbortIfNot (cross_correlate_ok env) ;;
    _ <- get_system_time ;;
    emit EvSendResult ;;
    AbortIfNot (send_result_ok env) ;;
    emit (EvSendXcorr (num_correlations env)) ;;
    AbortIfNot (send_xcorr_ok env) ;;
    emit (EvSendData (start_index env) ping_length) ;;
    AbortIfNot (send_data_ok env).

(** Lines 441-527. *)
Definition capture (sampling_frequency : Z) : M unit :=
  g <- get_glob ;;
  let num_samples := record_length (params g) (debug_stream g) sampling_frequency in
  sample_start_tick <- get_system_time ;;
  emit (EvRecord num_samples) ;;
  AbortIfNot (record_ok env) ;;
  emit (EvNormalize num_samples) ;;
  AbortIfNot (normalize_ok env) ;;
  (if filter (params g) then
     _ <- get_system_time ;;
     emit (EvFilter num_samples) ;;
     AbortIfNot (filter_ok env) ;;
     _ <- get_system_time ;;
     ret tt
   else ret tt) ;;
  if debug_stream g then
    emit (EvSendData 0 num_samples) ;;
    AbortIfNot (send_data_ok env)
  else process num_samples sampling_frequency sample_start_tick.

(** [FPGA_CLK / (params.sample_clk_div * 2)], line 362. *)
Definition sampling_frequency_of (p : HydroZynqParams) : Z :=
  u32 (FPGA_CLK / (sample_clk_div p * 2)).

(** One pass through the body of [while (1)], lines 361-528.  [Ok]
    means the loop goes round again. *)
Definition cycle (fuel : nat) : M unit :=
  g <- get_glob ;;
  let sampling_frequency := sampling_frequency_of (params g) in
  dispatch_network_stack (pump0 env) ;;
  sync_phase sampling_frequency ;;
  predict_phase fuel ;;
  capture sampling_frequency.

End WithEnv.

(** The events of one pass, started on an empty log. *)
Definition fresh (m : machine) : machine :=
  mkMachine (glob m) (previous_ping_tick m) (reads m) [].

Definition run_cycle (env : cycle_env) (fuel : nat) (m : machine)
  : outcome unit * machine :=
  cycle env fuel (fresh m).

End Scheduler.
Import Scheduler.

(** The parameters [go] installs before its loop (lines 345-357), with the
    register values of the 5 MHz set-up. *)
Definition initial_params : HydroZynqParams :=
  mkParams 10 SAMPLES_PER_PACKET INITIAL_ADC_THRESHOLD
           (micros_to_ticks 100) (micros_to_ticks 50) false.

Definition initial_globals : globals := mkGlobals initial_params false false.


(** ** How a value is written on the wire *)

(** Decimal digits of [v], least significant first; [fuel] bounds their
    number. *)
Fixpoint decimal_rev (fuel : nat) (v : Z) : list ascii :=
  match fuel with
  | O => []
  | S fuel' =>
      let d := ascii_of_nat (48 + Z.to_nat (v mod 10)) in
      if v <? 10 then [d] else d :: decimal_rev fuel' (v / 10)
  end.

(** The decimal numeral of a non-negative [v]. *)
Definition decimal (v : Z) : list ascii :=
  rev (decimal_rev (S (Z.to_nat (Z.log2 v))) v).

(** * Auxiliary definitions for the statements *)

(** ** Characters of a token *)

(** Characters that end neither a token nor a C string. *)
Definition token_char (c : ascii) : bool :=
  negb (Ascii.eqb c "," || Ascii.eqb c NUL).

(** Token characters other than the key separator. *)
Definition key_char (c : ascii) : bool :=
  (token_char c && negb (Ascii.eqb c ":"))%bool.


(** ** Classes of calls *)

Module Events.

Definition is_acquire_sync (e : event) : bool :=
  match e with EvAcquireSync _ => true | _ => false end.

Definition is_silent_request (e : event) : bool :=
  match e with EvSilentRequest _ => true | _ => false end.

Definition is_truncate (e : event) : bool :=
  match e with EvTruncate _ => true | _ => false end.

Definition is_cross_correlate (e : event) : bool :=
  match e with EvCrossCorrelate _ _ _ => true | _ => false end.

(** Result, correlation trace or sample trace sent to the host. *)
Definition is_transmission (e : event) : bool :=
  match e with
  | EvSendResult | EvSendXcorr _ | EvSendData _ _ => true
  | _ => false
  end.

(** Calls made by the network pump. *)
Definition pump_event (e : event) : bool :=
  match e with EvPump | EvReboot => true | _ => false end.

(** Calls made up to the end of the pre-ping wait. *)
Definition pre_capture_event (e : event) : bool :=
  match e with
  | EvPump | EvReboot | EvAcquireSync _ | EvSilentRequest _ => true
  | _ => false
  end.

Definition any_event (e : event) : bool := true.

Definition no_event (e : event) : bool := false.

(** Any call but the silent-running request. *)
Definition not_silent_request (e : event) : bool := negb (is_silent_request e).

End Events.
Import Events.

(** A computation only appends to the log, and what it appends satisfies
    [p]. *)
Definition emitsb (p : event -> bool) {A : Type} (c : M A) : Prop :=
  forall m r m',
    c m = (r, m') ->
    exists evs, trace m' = trace m ++ evs /\ forallb p evs = true.


(** ** The pump as a function of the globals *)

(** The globals once the handler has run on each datagram in turn. *)
Fixpoint served (junk : Z) (pkts : list (list ascii)) (g : globals) : globals :=
  match pkts with
  | [] => g
  | p :: rest => served junk rest (after (receive_command junk g p))
  end.

(** The reset calls made while those datagrams are served. *)
Fixpoint reboots (junk : Z) (pkts : list (list ascii)) (g : globals) : list event :=
  match pkts with
  | [] => []
  | p :: rest =>
      (if reboot (receive_command junk g p) then [EvReboot] else [])
      ++ reboots junk rest (after (receive_command junk g p))
  end.

(** Calls a cycle makes when it only streams raw samples. *)
Definition debug_event (e : event) : bool :=
  match e with
  | EvPump | EvReboot | EvRecord _ | EvNormalize _ | EvFilter _ | EvSendData _ _ => true
  | _ => false
  end.

(** Calls of a pass that streams [n] raw samples, in order. *)
Definition raw_stream_calls (g : globals) (n : Z) : list event :=
  [EvRecord n; EvNormalize n]
  ++ (if filter (params g) then [EvFilter n] else [])
  ++ [EvSendData 0 n].

(** Calls of a pass that has located the ping in [start, end). *)
Definition located_calls (env : cycle_env) : list event :=
  [EvCrossCorrelate (start_index env) (end_index env - start_index env) (MAX_SAMPLES * 2);
   EvSendResult;
   EvSendXcorr (num_correlations env);
   EvSendData (start_index env) (end_index env - start_index env)].

(** ** The tick counter *)







(** ** Accuracy of a tick *)

(** Sample [start] of a capture is taken [start / fs] seconds, that is
    [start * CPU_CLOCK_HZ / fs] ticks, after the capture begins, and one
    sample period lasts [CPU_CLOCK_HZ / fs] ticks.  An offset in ticks is
    within one sample period of that instant when, both sides multiplied by
    [fs], it differs from it by at most [CPU_CLOCK_HZ]. *)
Definition within_one_sample_period (offset start fs : Z) : Prop :=
  Z.abs (offset * fs - start * CPU_CLOCK_HZ) <= CPU_CLOCK_HZ.

(** ** Capacity of the correlation buffer *)

Definition capacity_as_coded (e : event) : bool :=
  match e with
  | EvCrossCorrelate _ _ cap => cap =? MAX_SAMPLES * 2
  | _ => true
  end.

(** ** Sample environments *)

(** A tick counter read once every 100 ms, first one second after start. *)
Definition clock_100ms (k : nat) : Z := ms_to_ticks 1000 + Z.of_nat k * ms_to_ticks 100.

(** Every collaborator succeeds; [acquire_sync] finds the ping at its
    first attempt; [truncate] answers [loc] with the window [1000, 2000). *)
Definition env_with (pkts : list (list ascii)) (loc : bool) : cycle_env :=
  mkEnv clock_100ms 0 SAMPLES_PER_PACKET pkts
        [mkSyncAnswer true true (ms_to_ticks 900) []]
        true true true true true loc 1000 2000 true 4001 true true true.




(** [env_with [] true] on a counter first read 61 s after its origin, as
    after a minute spent streaming raw samples. *)
Definition env_late : cycle_env :=
  mkEnv (fun k => ms_to_ticks 61000 + Z.of_nat k * ms_to_ticks 100)
        0 SAMPLES_PER_PACKET []
        [mkSyncAnswer true true (ms_to_ticks 900) []]
        true true true true true true 1000 2000 true 4001 true true true.

(** The machine as [go] enters its loop. *)
Definition m_boot : machine := mkMachine initial_globals (ms_to_ticks 900) 0 [].

(** A machine that is in sync, its last ping 900 ms after start. *)
Definition m_synced : machine :=
  mkMachine (with_sync true initial_globals) (ms_to_ticks 900) 0 [].

(** A machine in debug mode. *)
Definition m_debug : machine :=
  mkMachine (with_debug_stream true initial_globals) (ms_to_ticks 900) 0 [].


(** ** Tokens of a packet *)

(** The packet up to its first comma or NUL: the only token [parse_packet]
    ever reaches. *)
Fixpoint first_token (s : list ascii) : list ascii :=
  match s with
  | [] => []
  | c :: rest => if token_char c then c :: first_token rest else []
  end.

(** The keys [receive_command] compares against, in the order of its
    [strcmp] chain. *)
Definition command_keys : list string :=
  ["threshold"; "filter"; "debug"; "pre_ping_duration_us";
   "post_ping_duration_us"; "reset"]%string.

Definition recognised (key : list ascii) : bool :=
  existsb (fun lit => chars_eqb key (list_ascii_of_string lit)) command_keys.

(** The keys whose value goes through [sscanf]. *)
Definition numeric_keys : list string :=
  ["threshold"; "filter"; "debug"; "pre_ping_duration_us";
   "post_ping_duration_us"]%string.

(** ** Shape of the silent-running request *)

Fixpoint zlist_eqb (a b : list Z) : bool :=
  match a, b with
  | [], [] => true
  | x :: a', y :: b' => (x =? y) && zlist_eqb a' b'
  | _, _ => false
  end.

(** A silent request is 8 bytes long and its last four bytes are the
    [int32] 100. *)
Definition request_shape (e : event) : bool :=
  match e with
  | EvSilentRequest msg =>
      (List.length msg =? 8)%nat && zlist_eqb (skipn 4 msg) (le32 100)
  | _ => true
  end.

(** ** Results sent to the host *)

(** The result packet or the correlation trace (lines 521-524). *)
Definition is_result (e : event) : bool :=
  match e with EvSendResult | EvSendXcorr _ => true | _ => false end.

Definition not_result (e : event) : bool := negb (is_result e).

(** Every collaborator up to [cross_correlate] succeeds and [truncate]
    locates a non-empty ping. *)
Definition located_ok (env : cycle_env) : bool :=
  record_ok env && normalize_ok env && truncate_ok env && located env
  && (end_index env >? start_index env) && cross_correlate_ok env.

(** ** Several passes of the loop *)

(** The loop of [go] run for as many passes as there are environments:
    it goes on while a pass ends normally. *)
Fixpoint run_passes (envs : list (cycle_env * nat)) (m : machine)
  : outcome unit * machine :=
  match envs with
  | [] => (Ok tt, m)
  | (env, fuel) :: rest =>
      match run_cycle env fuel m with
      | (Ok _, m') => run_passes rest m'
      | (Fail, m') => (Fail, m')
      | (Spin, m') => (Spin, m')
      end
  end.

(** Parameters and raw-stream flag are the same in both globals. *)
Definition same_settings (g g' : globals) : Prop :=
  params g' = params g /\ debug_stream g' = debug_stream g.

(** The sampling set-up is the same in both globals. *)
Definition same_sampling (g g' : globals) : Prop :=
  sample_clk_div (params g') = sample_clk_div (params g) /\
  samples_per_packet (params g') = samples_per_packet (params g).

(** No datagram reaches the handler during the pass. *)
Definition no_datagram (env : cycle_env) : Prop :=
  pump0 env = [] /\ Forall (fun a => sa_pump a = []) (sync_answers env).

(** A computation leaves the globals related by [R]. *)
Definition keeps (R : globals -> globals -> Prop) {A : Type} (c : M A) : Prop :=
  forall m r m', c m = (r, m') -> R (glob m) (glob m').

(** * Properties of the command handler *)

Section HandlerFacts.

Lemma char_at_poke_NUL (data : list ascii) (i : nat) :
  char_at (poke data i NUL) i = NUL.
Proof.
  revert i; induction data as [|d rest IH]; intros [|i]; simpl; auto.
  apply IH.
Qed.

Lemma char_at_app (done rest : list ascii) (c : ascii) :
  char_at (done ++ c :: rest) (List.length done) = c.
Proof. induction done; simpl; auto. Qed.

Lemma poke_app (done rest : list ascii) (c c' : ascii) :
  poke (done ++ c :: rest) (List.length done) c' = done ++ c' :: rest.
Proof. induction done; simpl; congruence. Qed.

(** The first loop of [parse_packet] never stores more than one pair
    beyond those it was entered with: the test of line 129 reads the
    terminator that line 124 has just written over the comma. *)
Lemma split_tokens_one_more (n i max_pairs : nat) (data : list ascii)
      (last_start : nat) (keys : list nat) :
  (List.length (snd (split_tokens n i max_pairs data last_start keys))
   <= S (List.length keys))%nat.
Proof.
  revert i data last_start keys; induction n as [|n IH]; intros; simpl.
  - lia.
  - destruct (List.length keys <? max_pairs)%nat; simpl; [|lia].
    destruct (Ascii.eqb (char_at data i) "," || Ascii.eqb (char_at data i) NUL)%bool eqn:Hsep.
    + rewrite char_at_poke_NUL. simpl. rewrite length_app. simpl. lia.
    + destruct (Ascii.eqb (char_at data i) NUL) eqn:Hnul.
      * simpl. lia.
      * apply IH.
Qed.

Lemma split_values_length (keys : list nat) :
  forall data data' pairs,
    split_values keys data = Some (data', pairs) ->
    List.length pairs = List.length keys.
Proof.
  induction keys as [|k rest IH]; intros data data' pairs H; simpl in H.
  - inversion H; reflexivity.
  - destruct (find_colon (strlen data k) 0 data k) as [d1 [v|]]; [|discriminate].
    destruct (split_values rest d1) as [[d2 ps]|] eqn:E; [|discriminate].
    inversion H; subst. simpl. f_equal. eapply IH; eauto.
Qed.

(** Whatever the packet, [parse_packet] reports at most one pair. *)
Lemma parse_packet_single_pair (data data' : list ascii) (len max_pairs : nat)
      (pairs : list KeyValuePair) :
  parse_packet data len max_pairs = Some (data', pairs) ->
  (List.length pairs <= 1)%nat.
Proof.
  unfold parse_packet.
  pose proof (split_tokens_one_more len 0 max_pairs data 0 []) as Hone.
  destruct (split_tokens len 0 max_pairs data 0 []) as [d1 keys].
  intro H. apply split_values_length in H. simpl in Hone. lia.
Qed.

Lemma process_pairs_status (junk : Z) (data : list ascii)
      (pairs : list KeyValuePair) (st : globals * bool) :
  status (process_pairs junk data pairs st) = Handled \/
  status (process_pairs junk data pairs st) = ValueRejected.
Proof.
  revert st; induction pairs as [|kv rest IH]; intros st; simpl.
  - now left.
  - destruct (process_pair junk data kv st); [apply IH | now right].
Qed.

(** *** A packet that is one [key:value] token *)

Lemma token_char_inv (c : ascii) :
  token_char c = true -> Ascii.eqb c "," = false /\ Ascii.eqb c NUL = false.
Proof.
  unfold token_char. destruct (Ascii.eqb c ","), (Ascii.eqb c NUL); simpl; intuition congruence.
Qed.

Lemma key_char_inv (c : ascii) :
  key_char c = true ->
  Ascii.eqb c "," = false /\ Ascii.eqb c NUL = false /\ Ascii.eqb c ":" = false.
Proof.
  unfold key_char. intro H. apply andb_prop in H as [H1 H2].
  apply token_char_inv in H1. destruct (Ascii.eqb c ":"); simpl in H2; intuition congruence.
Qed.

Lemma key_char_token_char (s : list ascii) :
  forallb key_char s = true -> forallb token_char s = true.
Proof.
  induction s as [|c s IH]; simpl; auto. intro H.
  apply andb_prop in H as [H1 H2]. unfold key_char in H1.
  apply andb_prop in H1 as [H1 _]. rewrite H1. simpl. auto.
Qed.

Lemma cstr_app (a b : list ascii) :
  forallb token_char a = true -> cstr (a ++ b) = a ++ cstr b.
Proof.
  induction a as [|c a IH]; simpl; auto. intro H.
  apply andb_prop in H as [H1 H2]. apply token_char_inv in H1 as [_ H1].
  rewrite H1. f_equal. auto.
Qed.

Lemma cstr_at_app (pre x : list ascii) :
  cstr_at (pre ++ x) (List.length pre) = cstr x.
Proof. unfold cstr_at. induction pre; simpl; auto. Qed.

Lemma split_tokens_single (tok : list ascii) :
  forall (done : list ascii) (n max_pairs last_start : nat),
    forallb token_char tok = true ->
    (List.length tok < n)%nat -> (0 < max_pairs)%nat ->
    split_tokens n (List.length done) max_pairs (done ++ tok ++ [NUL]) last_start []
    = (done ++ tok ++ [NUL], [last_start]).
Proof.
  induction tok as [|c tok IH]; intros done n max_pairs last_start Hplain Hn Hmax;
    (destruct n as [|n]; [simpl in Hn; lia|]); simpl split_tokens.
  - replace (0 <? max_pairs)%nat with true by (symmetry; apply Nat.ltb_lt; lia).
    simpl app. rewrite char_at_app. simpl.
    rewrite poke_app, char_at_app. reflexivity.
  - replace (0 <? max_pairs)%nat with true by (symmetry; apply Nat.ltb_lt; lia).
    simpl in Hplain. apply andb_prop in Hplain as [Hc Hplain].
    apply token_char_inv in Hc as [Hcomma Hnul].
    simpl app. rewrite char_at_app, Hcomma, Hnul. simpl.
    rewrite char_at_app, Hnul.
    replace (done ++ c :: tok ++ [NUL]) with ((done ++ [c]) ++ tok ++ [NUL])
      by (rewrite <- app_assoc; reflexivity).
    replace (S (List.length done)) with (List.length (done ++ [c]))
      by (rewrite length_app; simpl; lia).
    apply IH; auto. simpl in Hn; lia.
Qed.

Lemma strlen_app_lt (a rest : list ascii) (c : ascii) :
  forallb token_char a = true -> Ascii.eqb c NUL = false ->
  (List.length a <? strlen (a ++ c :: rest) 0)%nat = true.
Proof.
  intros Ha Hc. apply Nat.ltb_lt. unfold strlen, cstr_at, skipn.
  rewrite cstr_app by exact Ha. rewrite length_app. simpl. rewrite Hc. simpl. lia.
Qed.

Lemma find_colon_found (key2 : list ascii) :
  forall (key1 rest : list ascii) (n : nat),
    forallb key_char (key1 ++ key2) = true ->
    (List.length key2 < n)%nat ->
    find_colon n (List.length key1) (key1 ++ key2 ++ ":"%char :: rest) 0
    = (key1 ++ key2 ++ NUL :: rest,
       Some (S (List.length (key1 ++ key2)))).
Proof.
  induction key2 as [|c key2 IH]; intros key1 rest n Hkey Hn;
    (destruct n as [|n]; [simpl in Hn; lia|]); simpl find_colon; simpl app.
  - rewrite app_nil_r in Hkey.
    rewrite strlen_app_lt by (auto using key_char_token_char).
    rewrite char_at_app. simpl.
    rewrite poke_app, app_nil_r. do 2 f_equal. lia.
  - pose proof Hkey as Hkey'.
    rewrite forallb_app in Hkey'. apply andb_prop in Hkey' as [Hk1 Hk2].
    simpl in Hk2. apply andb_prop in Hk2 as [Hc _].
    apply key_char_inv in Hc as (_ & Hnul & Hcolon).
    rewrite strlen_app_lt by (auto using key_char_token_char).
    rewrite char_at_app, Hcolon.
    replace (key1 ++ c :: key2 ++ ":"%char :: rest)
      with ((key1 ++ [c]) ++ key2 ++ ":"%char :: rest)
      by (rewrite <- app_assoc; reflexivity).
    replace (S (List.length key1)) with (List.length (key1 ++ [c]))
      by (rewrite length_app; simpl; lia).
    rewrite IH.
    + rewrite <- !app_assoc. reflexivity.
    + rewrite <- app_assoc. exact Hkey.
    + simpl in Hn. lia.
Qed.

(** On a packet made of the single token [key:val], [parse_packet]
    succeeds with one pair and has cut the buffer at the colon. *)
Lemma parse_packet_single (key val : list ascii) :
  forallb key_char key = true ->
  forallb token_char val = true ->
  parse_packet ((key ++ ":"%char :: val) ++ [NUL]) (List.length (key ++ ":"%char :: val) + 1) 10
  = Some (key ++ NUL :: val ++ [NUL], [mkPair 0 (S (List.length key))]).
Proof.
  intros Hkey Hval. unfold parse_packet.
  assert (Htok : forallb token_char (key ++ ":"%char :: val) = true).
  { rewrite forallb_app. rewrite (key_char_token_char _ Hkey). simpl. exact Hval. }
  pose proof (split_tokens_single (key ++ ":"%char :: val) [] (List.length (key ++ ":"%char :: val) + 1)
                                  10 0 Htok ltac:(lia) ltac:(lia)) as Hs.
  simpl app in Hs. simpl List.length in Hs at 2. simpl app.
  rewrite Hs. simpl split_values.
  assert (Hstr : strlen ((key ++ ":"%char :: val) ++ [NUL]) 0 = List.length (key ++ ":"%char :: val)).
  { unfold strlen, cstr_at. simpl skipn. rewrite cstr_app by exact Htok.
    simpl. rewrite app_nil_r. reflexivity. }
  rewrite Hstr.
  pose proof (find_colon_found key [] (val ++ [NUL]) (List.length (key ++ ":"%char :: val))) as Hf.
  simpl app in Hf. change (List.length (@nil ascii)) with 0%nat in Hf.
  rewrite <- app_assoc. simpl app.
  rewrite Hf.
  - reflexivity.
  - exact Hkey.
  - rewrite length_app. simpl. lia.
Qed.

Lemma strcmp_eq_key (key rest : list ascii) (lit : string) :
  forallb token_char key = true ->
  strcmp_eq (key ++ NUL :: rest) 0 lit = chars_eqb key (list_ascii_of_string lit).
Proof.
  intro H. unfold strcmp_eq, cstr_at, skipn. rewrite cstr_app by exact H.
  simpl. rewrite app_nil_r. reflexivity.
Qed.

Lemma cstr_at_value (key val : list ascii) :
  forallb token_char val = true ->
  cstr_at (key ++ NUL :: val ++ [NUL]) (S (List.length key)) = val.
Proof.
  intro H.
  replace (key ++ NUL :: val ++ [NUL]) with ((key ++ [NUL]) ++ val ++ [NUL])
    by (rewrite <- app_assoc; reflexivity).
  replace (S (List.length key)) with (List.length (key ++ [NUL]))
    by (rewrite length_app; simpl; lia).
  rewrite cstr_at_app, cstr_app by exact H. simpl. apply app_nil_r.
Qed.

(** The handler on a one-token packet that fits the buffer. *)
Lemma receive_command_single (junk : Z) (g : globals) (key val : list ascii) :
  forallb key_char key = true ->
  forallb token_char val = true ->
  (List.length (key ++ ":"%char :: val) <= 1023)%nat ->
  receive_command junk g (key ++ ":"%char :: val)
  = process_pairs junk (key ++ NUL :: val ++ [NUL])
                  [mkPair 0 (S (List.length key))] (g, false).
Proof.
  intros Hkey Hval Hlen. unfold receive_command.
  replace (Z.of_nat (List.length (key ++ ":"%char :: val)) >? DATA_SIZE - 1) with false
    by (symmetry; rewrite Z.gtb_ltb; apply Z.ltb_ge; unfold DATA_SIZE; lia).
  rewrite parse_packet_single by assumption. reflexivity.
Qed.

(** *** A packet whose first token has no colon *)

Lemma split_tokens_comma (tok : list ascii) :
  forall (done rest : list ascii) (n max_pairs last_start : nat),
    forallb token_char tok = true ->
    (List.length tok < n)%nat -> (0 < max_pairs)%nat ->
    split_tokens n (List.length done) max_pairs (done ++ tok ++ ","%char :: rest)
                 last_start []
    = (done ++ tok ++ NUL :: rest, [last_start]).
Proof.
  induction tok as [|c tok IH]; intros done rest n max_pairs last_start Hplain Hn Hmax;
    (destruct n as [|n]; [simpl in Hn; lia|]); simpl split_tokens;
    replace (0 <? max_pairs)%nat with true by (symmetry; apply Nat.ltb_lt; lia).
  - simpl app. rewrite char_at_app. simpl.
    rewrite poke_app, char_at_app. reflexivity.
  - simpl in Hplain. apply andb_prop in Hplain as [Hc Hplain].
    apply token_char_inv in Hc as [Hcomma Hnul].
    simpl app. rewrite char_at_app, Hcomma, Hnul. simpl.
    rewrite char_at_app, Hnul.
    replace (done ++ c :: tok ++ ","%char :: rest)
      with ((done ++ [c]) ++ tok ++ ","%char :: rest)
      by (rewrite <- app_assoc; reflexivity).
    replace (S (List.length done)) with (List.length (done ++ [c]))
      by (rewrite length_app; simpl; lia).
    rewrite IH; auto; [|simpl in Hn; lia].
    rewrite <- app_assoc. reflexivity.
Qed.

Lemma strlen_exact (key rest : list ascii) :
  forallb token_char key = true ->
  strlen (key ++ NUL :: rest) 0 = List.length key.
Proof.
  intro H. unfold strlen, cstr_at, skipn. rewrite cstr_app by exact H.
  simpl. rewrite app_nil_r. reflexivity.
Qed.

Lemma find_colon_none (key2 : list ascii) :
  forall (key1 rest : list ascii) (n : nat),
    forallb key_char (key1 ++ key2) = true ->
    find_colon n (List.length key1) (key1 ++ key2 ++ NUL :: rest) 0
    = (key1 ++ key2 ++ NUL :: rest, None).
Proof.
  induction key2 as [|c key2 IH]; intros key1 rest n Hkey;
    (destruct n as [|n]; [reflexivity|]); simpl find_colon.
  - simpl app. rewrite app_nil_r in Hkey.
    rewrite strlen_exact by (auto using key_char_token_char).
    rewrite Nat.ltb_irrefl. reflexivity.
  - pose proof Hkey as Hkey'.
    rewrite forallb_app in Hkey'. apply andb_prop in Hkey' as [Hk1 Hk2].
    simpl in Hk2. apply andb_prop in Hk2 as [Hc _].
    apply key_char_inv in Hc as (_ & Hnul & Hcolon).
    simpl app. rewrite strlen_app_lt by (auto using key_char_token_char).
    rewrite char_at_app, Hcolon.
    replace (key1 ++ c :: key2 ++ NUL :: rest)
      with ((key1 ++ [c]) ++ key2 ++ NUL :: rest)
      by (rewrite <- app_assoc; reflexivity).
    replace (S (List.length key1)) with (List.length (key1 ++ [c]))
      by (rewrite length_app; simpl; lia).
    apply IH. rewrite <- app_assoc. exact Hkey.
Qed.

(** A packet whose first token has no colon, be it the whole packet (the
    empty packet included) or followed by a comma and anything else, is
    dropped by the handler with nothing changed. *)
Lemma receive_command_bare_first_token (junk : Z) (g : globals)
      (tok tail : list ascii) :
  forallb key_char tok = true ->
  tail = [] \/ (exists rest, tail = ","%char :: rest) ->
  (List.length (tok ++ tail) <= 1023)%nat ->
  receive_command junk g (tok ++ tail) = mkResult ParseFailed g false.
Proof.
  intros Hkey Htail Hlen. unfold receive_command.
  replace (Z.of_nat (List.length (tok ++ tail)) >? DATA_SIZE - 1) with false
    by (symmetry; rewrite Z.gtb_ltb; apply Z.ltb_ge; unfold DATA_SIZE; lia).
  pose proof (key_char_token_char _ Hkey) as Htok.
  assert (Hparse : parse_packet ((tok ++ tail) ++ [NUL]) (List.length (tok ++ tail) + 1) 10
                   = None).
  { unfold parse_packet. destruct Htail as [-> | [rest ->]].
    - rewrite app_nil_r.
      pose proof (split_tokens_single tok [] (List.length tok + 1) 10 0 Htok
                                      ltac:(lia) ltac:(lia)) as Hs.
      simpl app in Hs. change (List.length (@nil ascii)) with 0%nat in Hs.
      rewrite Hs. cbn [split_values].
      pose proof (find_colon_none tok [] [] (strlen (tok ++ [NUL]) 0)) as Hf.
      simpl app in Hf. change (List.length (@nil ascii)) with 0%nat in Hf.
      rewrite Hf by exact Hkey. reflexivity.
    - rewrite <- app_assoc. simpl app.
      pose proof (split_tokens_comma tok [] (rest ++ [NUL])
                    (List.length (tok ++ ","%char :: rest) + 1) 10 0 Htok) as Hs.
      simpl app in Hs. change (List.length (@nil ascii)) with 0%nat in Hs.
      rewrite Hs by (rewrite ?length_app; simpl; lia). cbn [split_values].
      pose proof (find_colon_none tok [] (rest ++ [NUL])
                    (strlen (tok ++ NUL :: rest ++ [NUL]) 0)) as Hf.
      simpl app in Hf. change (List.length (@nil ascii)) with 0%nat in Hf.
      rewrite Hf by exact Hkey. reflexivity. }
  rewrite Hparse. reflexivity.
Qed.

(** *** Reading back a decimal numeral *)

Lemma digit_of_digit (d : Z) :
  0 <= d <= 9 -> digit_of (ascii_of_nat (48 + Z.to_nat d)) = Some d.
Proof.
  intro H.
  assert (d = 0 \/ d = 1 \/ d = 2 \/ d = 3 \/ d = 4 \/ d = 5 \/ d = 6 \/
          d = 7 \/ d = 8 \/ d = 9) as Hd by lia.
  repeat (destruct Hd as [Hd | Hd]; [subst d; reflexivity|]). subst d; reflexivity.
Qed.

Lemma digit_char_plain (c : ascii) (d : Z) :
  digit_of c = Some d ->
  token_char c = true /\ isspace c = false /\
  Ascii.eqb c "-" = false /\ Ascii.eqb c "+" = false.
Proof.
  destruct c as [[] [] [] [] [] [] [] []]; vm_compute; intro H;
    try discriminate H; repeat split.
Qed.

Lemma decimal_rev_digits (fuel : nat) :
  forall v, 0 <= v ->
    Forall (fun c => exists d, digit_of c = Some d) (decimal_rev fuel v).
Proof.
  induction fuel as [|fuel IH]; intros v Hv; simpl; [constructor|].
  assert (Hd : exists d, digit_of (ascii_of_nat (48 + Z.to_nat (v mod 10))) = Some d).
  { eexists. apply digit_of_digit. pose proof (Z.mod_pos_bound v 10). lia. }
  destruct (v <? 10).
  - constructor; [exact Hd | constructor].
  - constructor; [exact Hd | apply IH, Z.div_pos; lia].
Qed.

Lemma decimal_rev_length (fuel : nat) :
  forall v, (List.length (decimal_rev fuel v) <= fuel)%nat.
Proof.
  induction fuel as [|fuel IH]; intros v; simpl; [lia|].
  destruct (v <? 10); simpl; [lia|]. specialize (IH (v / 10)). lia.
Qed.

Lemma decimal_rev_S (fuel : nat) (v : Z) :
  decimal_rev (S fuel) v
  = if v <? 10 then [ascii_of_nat (48 + Z.to_nat (v mod 10))]
    else ascii_of_nat (48 + Z.to_nat (v mod 10)) :: decimal_rev fuel (v / 10).
Proof. reflexivity. Qed.

Lemma scan_decimal_rev (fuel : nat) :
  forall v any tail,
    0 <= v < 2 ^ Z.of_nat (S fuel) ->
    scan_digits (rev (decimal_rev (S fuel) v) ++ tail) 0 any
    = scan_digits tail v true.
Proof.
  assert (Hone : forall v any tail, 0 <= v < 10 ->
            scan_digits (rev [ascii_of_nat (48 + Z.to_nat (v mod 10))] ++ tail) 0 any
            = scan_digits tail v true).
  { intros v any tail Hv. cbn [rev app scan_digits].
    rewrite digit_of_digit by (pose proof (Z.mod_pos_bound v 10); lia).
    rewrite Z.mod_small by lia. reflexivity. }
  induction fuel as [|fuel IH]; intros v any tail Hv;
    rewrite decimal_rev_S; destruct (v <? 10) eqn:Hlt.
  - apply Z.ltb_lt in Hlt. apply Hone. lia.
  - apply Z.ltb_ge in Hlt. change (2 ^ Z.of_nat 1) with 2 in Hv. lia.
  - apply Z.ltb_lt in Hlt. apply Hone. lia.
  - apply Z.ltb_ge in Hlt.
    cbn [rev]. rewrite <- app_assoc. cbn [app].
    rewrite IH.
    + cbn [scan_digits].
      rewrite digit_of_digit by (pose proof (Z.mod_pos_bound v 10); lia).
      f_equal. pose proof (Z.div_mod v 10). lia.
    + split; [apply Z.div_pos; lia|].
      apply Z.div_lt_upper_bound; [lia|].
      replace (Z.of_nat (S (S fuel))) with (Z.succ (Z.of_nat (S fuel))) in Hv by lia.
      rewrite Z.pow_succ_r in Hv by lia. lia.
Qed.

Lemma decimal_digits (v : Z) :
  0 <= v -> Forall (fun c => exists d, digit_of c = Some d) (decimal v).
Proof.
  intro Hv. unfold decimal. apply Forall_rev, decimal_rev_digits, Hv.
Qed.

Lemma decimal_token_chars (v : Z) :
  0 <= v -> forallb token_char (decimal v) = true.
Proof.
  intro Hv. apply forallb_forall. intros c Hc.
  pose proof (decimal_digits v Hv) as Hall.
  rewrite Forall_forall in Hall. destruct (Hall c Hc) as [d Hd].
  apply digit_char_plain in Hd. tauto.
Qed.

Lemma decimal_length (v : Z) :
  0 <= v < 2 ^ 32 -> (List.length (decimal v) <= 32)%nat.
Proof.
  intro Hv. unfold decimal. rewrite length_rev.
  pose proof (decimal_rev_length (S (Z.to_nat (Z.log2 v))) v) as Hl.
  assert (Z.log2 v < 32).
  { destruct (Z.eq_dec v 0) as [->|Hnz]; [reflexivity|].
    apply Z.log2_lt_pow2; lia. }
  pose proof (Z.log2_nonneg v). lia.
Qed.

(** [sscanf] with [%u] reads the numeral of [v] back as [v]. *)
Lemma sscanf_u_decimal (v : Z) :
  0 <= v < 2 ^ 32 -> sscanf_u (decimal v) = ScanOK v.
Proof.
  intro Hv.
  assert (Hscan : scan_digits (decimal v) 0 false = (v, true)).
  { unfold decimal. rewrite <- (app_nil_r (rev _)).
    rewrite scan_decimal_rev; [reflexivity|].
    split; [lia|].
    destruct (Z.eq_dec v 0) as [->|Hnz]; [reflexivity|].
    rewrite Nat2Z.inj_succ, Z2Nat.id by apply Z.log2_nonneg.
    apply Z.log2_spec. lia. }
  pose proof (decimal_digits v ltac:(lia)) as Hall.
  destruct (decimal v) as [|c rest] eqn:Hdec.
  - simpl in Hscan. discriminate Hscan.
  - inversion Hall as [|? ? [d Hd] _]; subst.
    apply digit_char_plain in Hd as (_ & Hsp & Hminus & Hplus).
    unfold sscanf_u. cbn [skip_space]. rewrite Hsp, Hminus, Hplus, Hscan.
    unfold u32. rewrite Z.mod_small by lia. reflexivity.
Qed.

End HandlerFacts.

(** The empty packet is one token without a colon. *)
Example empty_packet_dropped :
  receive_command 0 initial_globals [] = mkResult ParseFailed initial_globals false.
Proof. reflexivity. Qed.

(** Of [threshold:1500,filter:1] only the first token takes effect. *)
Example threshold_then_filter :
  receive_command 0 initial_globals (packet "threshold:1500,filter:1")
  = mkResult Handled
             (with_sync false
                (with_params (set_ping_threshold 1500 initial_params) initial_globals))
             false /\
  filter (params (after (receive_command 0 initial_globals
                                          (packet "threshold:1500,filter:1")))) = false.
Proof. split; reflexivity. Qed.

Example decimal_123 : decimal 123 = packet "123".
Proof. reflexivity. Qed.

Example decimal_0 : decimal 0 = packet "0".
Proof. reflexivity. Qed.

Example decimal_max : decimal 4294967295 = packet "4294967295".
Proof. reflexivity. Qed.

(** * The command handler: claims *)

(** A one-token [threshold:v] packet sets [ping_threshold] and clears
    [sync], and touches nothing else. *)
Lemma threshold_single_token (junk : Z) (g : globals) (v : Z) :
  0 <= v < 2 ^ 32 ->
  receive_command junk g (packet "threshold:" ++ decimal v)
  = mkResult Handled
             (with_sync false (with_params (set_ping_threshold v (params g)) g)) false.
Proof.
  intro Hv.
  change (packet "threshold:" ++ decimal v)
    with (packet "threshold" ++ ":"%char :: decimal v).
  rewrite receive_command_single.
  - cbn [process_pairs]. unfold process_pair. cbn [key value].
    rewrite !strcmp_eq_key by reflexivity.
    rewrite cstr_at_value by (apply decimal_token_chars; lia).
    rewrite sscanf_u_decimal by exact Hv. reflexivity.
  - reflexivity.
  - apply decimal_token_chars; lia.
  - pose proof (decimal_length v Hv). rewrite length_app. simpl. lia.
Qed.

(** C6 (evaluation at the failing input).  A [threshold] token that is not
    the first token of its packet is never looked at: on
    [filter:1,threshold:1500] the handler sets [filter] and leaves
    [ping_threshold] and [sync] as they were. *)
Theorem C6_threshold_after_first_token_ignored (junk : Z) (g : globals) :
  receive_command junk g (packet "filter:1,threshold:1500")
  = mkResult Handled (with_params (set_filter true (params g)) g) false.
Proof. reflexivity. Qed.

(** C7 (counterexample).  A payload of exactly 1024 bytes is refused as too
    long and changes nothing, although the same text one byte shorter is
    accepted and applied. *)
Lemma C7_counterexample :
  List.length (packet "threshold:7," ++ repeat "x"%char 1012) = 1024%nat /\
  receive_command 0 initial_globals (packet "threshold:7," ++ repeat "x"%char 1012)
  = mkResult PacketTooLong initial_globals false /\
  status (receive_command 0 initial_globals (packet "threshold:7," ++ repeat "x"%char 1011))
  = Handled /\
  ping_threshold (params (after
    (receive_command 0 initial_globals (packet "threshold:7," ++ repeat "x"%char 1011)))) = 7.
Proof. vm_compute. repeat split. Qed.

(** C7 (amended).  The handler refuses a payload, with the diagnostic of
    line 168 and without touching any state, exactly when it is longer than
    1023 bytes ([sizeof(data) - 1]); every payload of at most 1023 bytes is
    copied, terminated and handed to [parse_packet]. *)
Theorem C7_length_gate (junk : Z) (g : globals) (payload : list ascii) :
  receive_command junk g payload
  = (if (1023 <? List.length payload)%nat
     then mkResult PacketTooLong g false
     else match parse_packet (payload ++ [NUL]) (List.length payload + 1) 10 with
          | None => mkResult ParseFailed g false
          | Some (data, pairs) => process_pairs junk data pairs (g, false)
          end) /\
  (status (receive_command junk g payload) = PacketTooLong
   <-> (1023 < List.length payload)%nat).
Proof.
  assert (Hgate : (Z.of_nat (List.length payload) >? DATA_SIZE - 1)
                  = (1023 <? List.length payload)%nat).
  { unfold DATA_SIZE. rewrite Z.gtb_ltb.
    destruct (1023 <? List.length payload)%nat eqn:E.
    - apply Nat.ltb_lt in E. apply Z.ltb_lt. lia.
    - apply Nat.ltb_ge in E. apply Z.ltb_ge. lia. }
  unfold receive_command. rewrite Hgate.
  destruct (1023 <? List.length payload)%nat eqn:E.
  - apply Nat.ltb_lt in E. split; [reflexivity|]. simpl. tauto.
  - apply Nat.ltb_ge in E. split; [reflexivity|].
    split; [|lia].
    destruct (parse_packet (payload ++ [NUL]) (List.length payload + 1) 10)
      as [[data pairs]|]; simpl; [|discriminate].
    destruct (process_pairs_status junk data pairs (g, false)) as [H|H];
      rewrite H; discriminate.
Qed.

(** C8.  For every [v] that fits [unsigned int], the packet
    [pre_ping_duration_us:v] leaves [pre_ping_duration] equal to
    [micros_to_ticks v] and the packet [post_ping_duration_us:v] leaves
    [post_ping_duration] equal to [micros_to_ticks v]; no other cell
    changes. *)
Theorem C8_duration_round_trip (junk : Z) (g : globals) (v : Z) :
  0 <= v < 2 ^ 32 ->
  receive_command junk g (packet "pre_ping_duration_us:" ++ decimal v)
  = mkResult Handled
      (with_params (set_pre_ping_duration (micros_to_ticks v) (params g)) g) false /\
  pre_ping_duration (params (after
    (receive_command junk g (packet "pre_ping_duration_us:" ++ decimal v))))
  = micros_to_ticks v /\
  receive_command junk g (packet "post_ping_duration_us:" ++ decimal v)
  = mkResult Handled
      (with_params (set_post_ping_duration (micros_to_ticks v) (params g)) g) false /\
  post_ping_duration (params (after
    (receive_command junk g (packet "post_ping_duration_us:" ++ decimal v))))
  = micros_to_ticks v.
Proof.
  intro Hv.
  assert (Hpre : receive_command junk g (packet "pre_ping_duration_us:" ++ decimal v)
                 = mkResult Handled
                     (with_params (set_pre_ping_duration (micros_to_ticks v) (params g)) g)
                     false).
  { change (packet "pre_ping_duration_us:" ++ decimal v)
      with (packet "pre_ping_duration_us" ++ ":"%char :: decimal v).
    rewrite receive_command_single.
    - cbn [process_pairs]. unfold process_pair. cbn [key value].
      rewrite !strcmp_eq_key by reflexivity.
      rewrite cstr_at_value by (apply decimal_token_chars; lia).
      rewrite sscanf_u_decimal by exact Hv. reflexivity.
    - reflexivity.
    - apply decimal_token_chars; lia.
    - pose proof (decimal_length v Hv). rewrite length_app. simpl. lia. }
  assert (Hpost : receive_command junk g (packet "post_ping_duration_us:" ++ decimal v)
                  = mkResult Handled
                      (with_params (set_post_ping_duration (micros_to_ticks v) (params g)) g)
                      false).
  { change (packet "post_ping_duration_us:" ++ decimal v)
      with (packet "post_ping_duration_us" ++ ":"%char :: decimal v).
    rewrite receive_command_single.
    - cbn [process_pairs]. unfold process_pair. cbn [key value].
      rewrite !strcmp_eq_key by reflexivity.
      rewrite cstr_at_value by (apply decimal_token_chars; lia).
      rewrite sscanf_u_decimal by exact Hv. reflexivity.
    - reflexivity.
    - apply decimal_token_chars; lia.
    - pose proof (decimal_length v Hv). rewrite length_app. simpl. lia. }
  rewrite Hpre, Hpost. repeat split.
Qed.

Lemma C8_duration_round_trip_witness :
  0 <= 123 < 2 ^ 32 /\
  pre_ping_duration (params (after
    (receive_command 0 initial_globals (packet "pre_ping_duration_us:123"))))
  = micros_to_ticks 123.
Proof.
  split; [lia|].
  apply (C8_duration_round_trip 0 initial_globals 123). lia.
Defined.

(** C10 (evaluation at the failing input).  The token [bad] has no colon,
    yet [threshold:7,bad] is accepted: [parse_packet] succeeds with the
    first token alone and the handler sets [ping_threshold] and clears
    [sync]. *)
Theorem C10_malformed_later_token_applied (junk : Z) (g : globals) :
  parse_packet (packet "threshold:7,bad" ++ [NUL]) 16 10
  = Some (packet "threshold" ++ NUL :: packet "7" ++ NUL :: packet "bad" ++ [NUL],
          [mkPair 0 10]) /\
  receive_command junk g (packet "threshold:7,bad")
  = mkResult Handled
             (with_sync false (with_params (set_ping_threshold 7 (params g)) g)) false.
Proof. split; reflexivity. Qed.

(** * The acquisition loop: what each phase may emit *)


Create HintDb emits.

Section Emits.

Variable env : cycle_env.

Lemma emitsb_ret p {A} (a : A) : emitsb p (ret a).
Proof. intros m r m' H; inversion H; subst. exists []. now rewrite app_nil_r. Qed.

Lemma emitsb_spin p {A} : emitsb p (@spin A).
Proof. intros m r m' H; inversion H; subst. exists []. now rewrite app_nil_r. Qed.

Lemma emitsb_AbortIfNot p b : emitsb p (AbortIfNot b).
Proof.
  intros m r m' H; unfold AbortIfNot in H; destruct b; inversion H; subst;
    exists []; now rewrite app_nil_r.
Qed.

Lemma emitsb_emit (p : event -> bool) e : p e = true -> emitsb p (emit e).
Proof.
  intros He m r m' H; inversion H; subst. exists [e]. simpl. now rewrite He.
Qed.

Lemma emitsb_get_glob p : emitsb p get_glob.
Proof. intros m r m' H; inversion H; subst. exists []. now rewrite app_nil_r. Qed.

Lemma emitsb_put_glob p g : emitsb p (put_glob g).
Proof. intros m r m' H; inversion H; subst. exists []. simpl. now rewrite app_nil_r. Qed.

Lemma emitsb_get_previous p : emitsb p get_previous_ping_tick.
Proof. intros m r m' H; inversion H; subst. exists []. now rewrite app_nil_r. Qed.

Lemma emitsb_put_previous p t : emitsb p (put_previous_ping_tick t).
Proof. intros m r m' H; inversion H; subst. exists []. simpl. now rewrite app_nil_r. Qed.

Lemma emitsb_get_system_time p : emitsb p (get_system_time env).
Proof. intros m r m' H; inversion H; subst. exists []. simpl. now rewrite app_nil_r. Qed.

Lemma emitsb_bind p {A B} (c : M A) (k : A -> M B) :
  emitsb p c -> (forall a, emitsb p (k a)) -> emitsb p (bind c k).
Proof.
  intros Hc Hk m r m' H. unfold bind in H.
  destruct (c m) as [[a| |] m1] eqn:Ec.
  - destruct (Hc _ _ _ Ec) as (e1 & T1 & P1).
    destruct (Hk a _ _ _ H) as (e2 & T2 & P2).
    exists (e1 ++ e2). rewrite T2, T1, app_assoc, forallb_app, P1, P2. auto.
  - inversion H; subst. exact (Hc _ _ _ Ec).
  - inversion H; subst. exact (Hc _ _ _ Ec).
Qed.

Lemma emitsb_weaken (p q : event -> bool) {A} (c : M A) :
  (forall e, p e = true -> q e = true) -> emitsb p c -> emitsb q c.
Proof.
  intros Hpq Hc m r m' H. destruct (Hc _ _ _ H) as (evs & T & P).
  exists evs. split; [exact T|].
  rewrite forallb_forall in *. auto.
Qed.

Hint Resolve emitsb_ret emitsb_spin emitsb_AbortIfNot emitsb_get_glob
     emitsb_put_glob emitsb_get_previous emitsb_put_previous
     emitsb_get_system_time : emits.

Ltac emits_step :=
  match goal with
  | |- emitsb _ (bind _ _) => apply emitsb_bind; [|intros; cbv beta]
  | |- emitsb _ (if ?b then _ else _) => destruct b
  | |- emitsb _ (emit _) => apply emitsb_emit; reflexivity
  | |- emitsb _ _ => solve [auto with emits]
  end.

Lemma emitsb_deliver pkts : emitsb pump_event (deliver env pkts).
Proof.
  induction pkts as [|pkt rest IH]; cbn [deliver]; repeat emits_step.
Qed.

Lemma emitsb_dispatch pkts : emitsb pump_event (dispatch_network_stack env pkts).
Proof. unfold dispatch_network_stack. repeat emits_step. apply emitsb_deliver. Qed.

Lemma pump_pre_capture e : pump_event e = true -> pre_capture_event e = true.
Proof. destruct e; simpl; congruence. Qed.

Lemma emitsb_sync_loop fs answers :
  forall found, emitsb pre_capture_event (sync_loop env fs answers found).
Proof.
  induction answers as [|a rest IH]; intros found m r m' H; cbn [sync_loop] in H;
    destruct (negb found && negb (debug_stream (glob m)))%bool;
    try (inversion H; subst; exists []; now rewrite app_nil_r).
  - eapply emitsb_bind; [| |exact H]; [apply emitsb_emit; reflexivity|].
    intros; apply emitsb_spin.
  - eapply emitsb_bind; [| |exact H]; [apply emitsb_emit; reflexivity|].
    intros; cbv beta. repeat emits_step.
    eapply emitsb_weaken; [apply pump_pre_capture | apply emitsb_dispatch].
Qed.

Lemma emitsb_sync_phase fs : emitsb pre_capture_event (sync_phase env fs).
Proof. unfold sync_phase. repeat emits_step. apply emitsb_sync_loop. Qed.

(** The two loops on the counter make no call at all. *)
Lemma emitsb_fast_forward p fuel : forall next, emitsb p (fast_forward env fuel next).
Proof. induction fuel as [|fuel IH]; intros next; cbn [fast_forward]; repeat emits_step. Qed.

Lemma emitsb_busy_wait p fuel next : emitsb p (busy_wait env fuel next).
Proof. induction fuel as [|fuel IH]; cbn [busy_wait]; repeat emits_step. Qed.

Lemma emitsb_predict_phase fuel : emitsb pre_capture_event (predict_phase env fuel).
Proof.
  unfold predict_phase, request_thruster_shutdown. repeat emits_step.
  - apply emitsb_fast_forward.
  - apply emitsb_busy_wait.
Qed.

Lemma emitsb_capture fs : emitsb any_event (capture env fs).
Proof. unfold capture, process. repeat emits_step. Qed.

Lemma emitsb_cycle fuel : emitsb any_event (cycle env fuel).
Proof.
  unfold cycle. repeat emits_step.
  - eapply emitsb_weaken; [|apply emitsb_dispatch]. reflexivity.
  - eapply emitsb_weaken; [|apply emitsb_sync_phase]. reflexivity.
  - eapply emitsb_weaken; [|apply emitsb_predict_phase]. reflexivity.
  - apply emitsb_capture.
Qed.

End Emits.

#[global] Hint Resolve emitsb_ret emitsb_spin emitsb_AbortIfNot emitsb_get_glob
  emitsb_put_glob emitsb_get_previous emitsb_put_previous
  emitsb_get_system_time : emits.

(** Walk down a chain of binds, one syntactic step at a time. *)
Ltac emits_walk :=
  repeat match goal with
         | |- emitsb _ (bind _ _) => apply emitsb_bind; [|intros; cbv beta]
         | |- emitsb _ (if ?b then _ else _) => destruct b
         | |- emitsb _ (emit _) => apply emitsb_emit; reflexivity
         | |- emitsb any_event (dispatch_network_stack _ _) =>
             eapply emitsb_weaken; [|apply emitsb_dispatch]; reflexivity
         | |- emitsb any_event (sync_loop _ _ _ _) =>
             eapply emitsb_weaken; [|apply emitsb_sync_loop]; reflexivity
         | |- emitsb any_event (predict_phase _ _) =>
             eapply emitsb_weaken; [|apply emitsb_predict_phase]; reflexivity
         | |- emitsb any_event (capture _ _) => apply emitsb_capture
         | |- emitsb _ _ => solve [auto with emits]
         end.

(** * The acquisition loop: the pump and the phases one by one *)

Ltac run_capture :=
  unfold capture, process, bind, get_glob, put_glob, get_system_time,
    put_previous_ping_tick, emit, AbortIfNot, ret;
  cbn [glob previous_ping_tick reads trace fst snd].

Ltac split_ifs :=
  repeat match goal with
         | |- context [if ?b then _ else _] =>
             destruct b eqn:?; cbn [glob previous_ping_tick reads trace fst snd negb]
         end.

Section Phases.

Variable env : cycle_env.

Lemma deliver_spec (pkts : list (list ascii)) :
  forall m,
    deliver env pkts m
    = (Ok tt, mkMachine (served (junk env) pkts (glob m)) (previous_ping_tick m)
                        (reads m) (trace m ++ reboots (junk env) pkts (glob m))).
Proof.
  induction pkts as [|p rest IH]; intros [g t k tr]; cbn [deliver served reboots].
  - unfold ret. simpl. now rewrite app_nil_r.
  - unfold bind, get_glob, put_glob. cbn [glob previous_ping_tick reads trace].
    destruct (reboot (receive_command (junk env) g p)); unfold emit, ret;
      cbn [glob previous_ping_tick reads trace]; rewrite IH;
      cbn [glob previous_ping_tick reads trace].
    + now rewrite <- app_assoc.
    + reflexivity.
Qed.

Lemma dispatch_spec (pkts : list (list ascii)) (m : machine) :
  dispatch_network_stack env pkts m
  = (Ok tt, mkMachine (served (junk env) pkts (glob m)) (previous_ping_tick m)
                      (reads m)
                      (trace m ++ EvPump :: reboots (junk env) pkts (glob m))).
Proof.
  unfold dispatch_network_stack, bind, emit. rewrite deliver_spec.
  cbn [glob previous_ping_tick reads trace]. now rewrite <- app_assoc.
Qed.

(** No command sets the sync bit. *)
Lemma process_pair_sync (junk0 : Z) (data : list ascii) (kv : KeyValuePair)
      (g g' : globals) (rb rb' : bool) :
  process_pair junk0 data kv (g, rb) = Some (g', rb') ->
  sync g = false -> sync g' = false.
Proof.
  unfold process_pair. intros H Hs.
  repeat match type of H with
         | (if ?b then _ else _) = _ => destruct b
         | match ?x with _ => _ end = _ => destruct x
         end;
    inversion H; subst; simpl; auto.
Qed.

Lemma process_pairs_sync (junk0 : Z) (data : list ascii) (pairs : list KeyValuePair) :
  forall st, sync (fst st) = false ->
             sync (after (process_pairs junk0 data pairs st)) = false.
Proof.
  induction pairs as [|kv rest IH]; intros [g rb] Hs; cbn [process_pairs];
    [exact Hs|].
  destruct (process_pair junk0 data kv (g, rb)) as [[g' rb']|] eqn:E; [|exact Hs].
  apply IH. cbn [fst] in *. eapply process_pair_sync; eauto.
Qed.

Lemma receive_command_sync (junk0 : Z) (g : globals) (payload : list ascii) :
  sync g = false -> sync (after (receive_command junk0 g payload)) = false.
Proof.
  intro Hs. unfold receive_command.
  destruct (Z.of_nat (List.length payload) >? DATA_SIZE - 1); simpl; auto.
  destruct (parse_packet _ _ _) as [[d pairs]|]; simpl; auto.
  apply process_pairs_sync. exact Hs.
Qed.

Lemma served_sync (junk0 : Z) (pkts : list (list ascii)) :
  forall g, sync g = false -> sync (served junk0 pkts g) = false.
Proof.
  induction pkts as [|p rest IH]; intros g Hs; simpl; auto.
  apply IH, receive_command_sync, Hs.
Qed.

(** The body of the loop, one phase after the other. *)
Lemma cycle_unfold (fuel : nat) (m : machine) :
  cycle env fuel m
  = let fs := sampling_frequency_of (params (glob m)) in
    match dispatch_network_stack env (pump0 env) m with
    | (Ok _, m1) =>
        match sync_phase env fs m1 with
        | (Ok _, m2) =>
            match predict_phase env fuel m2 with
            | (Ok _, m3) => capture env fs m3
            | (Fail, m3) => (Fail, m3)
            | (Spin, m3) => (Spin, m3)
            end
        | (Fail, m2) => (Fail, m2)
        | (Spin, m2) => (Spin, m2)
        end
    | (Fail, m1) => (Fail, m1)
    | (Spin, m1) => (Spin, m1)
    end.
Proof. reflexivity. Qed.

Lemma sync_phase_skipped (fs : Z) (m : machine) :
  (sync (glob m) || debug_stream (glob m))%bool = true ->
  sync_phase env fs m = (Ok tt, m).
Proof.
  intro H. unfold sync_phase, bind, get_glob.
  destruct (sync (glob m)), (debug_stream (glob m)); simpl in *;
    try discriminate; reflexivity.
Qed.

Lemma predict_phase_skipped (fuel : nat) (m : machine) :
  debug_stream (glob m) = true -> predict_phase env fuel m = (Ok tt, m).
Proof. intro H. unfold predict_phase, bind, get_glob. rewrite H. reflexivity. Qed.

Lemma emitsb_run (p : event -> bool) {A} (c : M A) (m : machine) :
  emitsb p c -> exists rest, trace (snd (c m)) = trace m ++ rest.
Proof.
  intro Hc. destruct (c m) as [r m'] eqn:E.
  destruct (Hc _ _ _ E) as (rest & T & _). exists rest. exact T.
Qed.

(** What a computation has logged stays logged by what follows it. *)
Lemma bind_trace_prefix {A B} (c : M A) (k : A -> M B) (m : machine)
      (pre : list event) :
  (exists rest, trace (snd (c m)) = pre ++ rest) ->
  (forall a, emitsb any_event (k a)) ->
  exists rest, trace (snd (bind c k m)) = pre ++ rest.
Proof.
  intros [rest T] Hk. unfold bind.
  destruct (c m) as [[a| |] m1]; cbn [snd] in *.
  - destruct (emitsb_run any_event (k a) m1 (Hk a)) as [more Tm].
    exists (rest ++ more). rewrite Tm, T. now rewrite <- app_assoc.
  - exists rest. exact T.
  - exists rest. exact T.
Qed.

Lemma sync_loop_entered (fs : Z) (m : machine) :
  debug_stream (glob m) = false ->
  exists rest,
    trace (snd (sync_loop env fs (sync_answers env) false m))
    = (trace m ++ [EvAcquireSync (duration_samples 2100 fs)]) ++ rest.
Proof.
  intro Hd.
  destruct (sync_answers env) as [|a answers]; cbn [sync_loop];
    rewrite Hd; cbn [negb andb]; unfold bind at 1; unfold emit.
  - exists []. unfold spin. cbn [snd trace]. now rewrite app_nil_r.
  - match goal with |- context [snd (?c ?m1)] =>
      destruct (emitsb_run any_event c m1) as [rest T] end.
    + emits_walk.
    + exists rest. exact T.
Qed.

(** A desynchronised, non-debug machine starts the sync phase with a
    call of [acquire_sync]. *)
Lemma sync_phase_entered (fs : Z) (m : machine) :
  sync (glob m) = false -> debug_stream (glob m) = false ->
  exists rest,
    trace (snd (sync_phase env fs m))
    = (trace m ++ [EvAcquireSync (duration_samples 2100 fs)]) ++ rest.
Proof.
  intros Hs Hd. unfold sync_phase. unfold bind at 1. unfold get_glob.
  rewrite Hs, Hd. cbn [negb andb].
  apply bind_trace_prefix.
  - apply sync_loop_entered, Hd.
  - intros [|]; emits_walk.
Qed.

(** The same at the level of a whole pass: after the pump, the first call
    is [acquire_sync]. *)
Lemma cycle_enters_sync (fuel : nat) (m : machine) :
  sync (served (junk env) (pump0 env) (glob m)) = false ->
  debug_stream (served (junk env) (pump0 env) (glob m)) = false ->
  exists rest,
    trace (snd (cycle env fuel m))
    = (trace m ++ EvPump :: reboots (junk env) (pump0 env) (glob m))
      ++ EvAcquireSync
           (duration_samples 2100 (sampling_frequency_of (params (glob m))))
      :: rest.
Proof.
  intros Hs Hd. unfold cycle. unfold bind at 1. unfold get_glob.
  unfold bind at 1. rewrite dispatch_spec.
  match goal with |- context [bind (sync_phase env ?fs) ?k ?m1] =>
    destruct (bind_trace_prefix (sync_phase env fs) k m1
                (trace m1 ++ [EvAcquireSync (duration_samples 2100 fs)]))
      as [rest T]
  end.
  - apply sync_phase_entered; assumption.
  - intros _. emits_walk.
  - exists rest. rewrite T. cbn [trace]. now rewrite <- app_assoc.
Qed.

Lemma reboots_pump_events (junk0 : Z) (pkts : list (list ascii)) :
  forall g, forallb pump_event (reboots junk0 pkts g) = true.
Proof.
  induction pkts as [|p rest IH]; intros g; cbn [reboots]; [reflexivity|].
  rewrite forallb_app, IH. destruct (reboot _); reflexivity.
Qed.

(** The capture phase of a debug pass: record, normalise, filter when
    enabled, send the buffer on the data-stream socket; the calls stop at
    the first collaborator that fails. *)
Lemma capture_debug (fs : Z) (m : machine) :
  debug_stream (glob m) = true ->
  let n := record_length env (params (glob m)) true fs in
  exists calls more,
    trace (snd (capture env fs m)) = trace m ++ calls /\
    calls ++ more = raw_stream_calls (glob m) n /\
    glob (snd (capture env fs m)) = glob m /\
    fst (capture env fs m) <> Spin /\
    (record_ok env = true -> normalize_ok env = true ->
     (filter (params (glob m)) = true -> filter_ok env = true) ->
     send_data_ok env = true ->
     fst (capture env fs m) = Ok tt /\ more = []).
Proof.
  intros Hd n. subst n. unfold raw_stream_calls. run_capture. rewrite Hd.
  split_ifs; rewrite <- ?app_assoc; cbn [app];
    eexists; eexists; (split; [reflexivity|]);
    (split; [cbn [app]; reflexivity|]);
    (split; [reflexivity|]); (split; [discriminate|]);
    intros; try discriminate; try (split; reflexivity);
    exfalso; auto using diff_false_true.
Qed.

Lemma pre_capture_quiet (evs : list event) :
  forallb pre_capture_event evs = true ->
  existsb is_truncate evs = false /\
  existsb is_cross_correlate evs = false /\
  forallb (fun e => negb (is_transmission e)) evs = true.
Proof.
  induction evs as [|e evs IH]; cbn [forallb existsb]; [auto|].
  intro H. apply andb_prop in H as [He H]. destruct (IH H) as (I1 & I2 & I3).
  rewrite I1, I2, I3. destruct e; simpl in *; try discriminate; auto.
Qed.

(** The capture phase of a pass in which [truncate] is called and
    returns. *)
Lemma capture_truncate (fs : Z) (m : machine) (evs : list event) :
  trace (snd (capture env fs m)) = trace m ++ evs ->
  existsb is_truncate evs = true ->
  truncate_ok env = true ->
  (located env = false ->
     fst (capture env fs m) = Ok tt /\
     sync (glob (snd (capture env fs m))) = false /\
     forallb (fun e => negb (is_transmission e)) evs = true) /\
  (located env = true ->
     sync (glob (snd (capture env fs m))) = true /\
     (start_index env < end_index env ->
        In (EvCrossCorrelate (start_index env) (end_index env - start_index env)
                             (MAX_SAMPLES * 2)) evs /\
        (cross_correlate_ok env = true -> send_result_ok env = true ->
         send_xcorr_ok env = true -> send_data_ok env = true ->
         fst (capture env fs m) = Ok tt /\
         exists before, evs = before ++ located_calls env))).
Proof.
  unfold located_calls. run_capture. intros T Htr Hok. rewrite Hok in *.
  destruct (located env); cbn [negb] in *; revert T;
    split_ifs; rewrite <- ?app_assoc; cbn [app]; intro T;
    apply app_inv_head in T; subst evs; cbn in Htr; try discriminate Htr;
    (split; intro Hloc; [|split; [|intro Hlt; split; [|intros ? ? ? ?]]]);
    try discriminate; try (repeat split; reflexivity);
    try (exfalso; match goal with
                  | H : (_ >? _) = false |- _ =>
                      rewrite Z.gtb_ltb in H; apply Z.ltb_ge in H; lia
                  end);
    try (cbn [In]; tauto).
  all: split; [reflexivity|].
  - eexists [_; _; _; _]. reflexivity.
  - eexists [_; _; _]. reflexivity.
Qed.

(** A pass either stops before the capture phase, having made only
    pump, sync and silent-request calls, or runs the capture phase on a
    machine whose log holds only such calls. *)
Lemma cycle_split (fuel : nat) (m : machine) :
  trace m = [] ->
  (forallb pre_capture_event (trace (snd (cycle env fuel m))) = true /\
   fst (cycle env fuel m) <> Ok tt) \/
  (exists m3,
      forallb pre_capture_event (trace m3) = true /\
      cycle env fuel m = capture env (sampling_frequency_of (params (glob m))) m3).
Proof.
  intro Hnil. rewrite cycle_unfold. cbv zeta. rewrite dispatch_spec.
  set (fs := sampling_frequency_of (params (glob m))).
  set (m1 := mkMachine _ _ _ _).
  assert (P1 : forallb pre_capture_event (trace m1) = true).
  { unfold m1. cbn [trace]. rewrite Hnil. cbn [app forallb pre_capture_event andb].
    apply forallb_forall. intros e He. apply pump_pre_capture.
    pose proof (reboots_pump_events (junk env) (pump0 env) (glob m)) as Hr.
    rewrite forallb_forall in Hr. auto. }
  destruct (sync_phase env fs m1) as [r2 m2] eqn:E2.
  destruct (emitsb_sync_phase env fs _ _ _ E2) as (ev2 & T2 & P2).
  assert (Q2 : forallb pre_capture_event (trace m2) = true)
    by (rewrite T2, forallb_app, P1, P2; reflexivity).
  destruct r2 as [[]| |]; cbn [fst snd];
    [|left; split; [exact Q2 | discriminate]
     |left; split; [exact Q2 | discriminate]].
  destruct (predict_phase env fuel m2) as [r3 m3] eqn:E3.
  destruct (emitsb_predict_phase env fuel _ _ _ E3) as (ev3 & T3 & P3).
  assert (Q3 : forallb pre_capture_event (trace m3) = true)
    by (rewrite T3, forallb_app, Q2, P3; reflexivity).
  destruct r3 as [[]| |]; cbn [fst snd];
    [|left; split; [exact Q3 | discriminate]
     |left; split; [exact Q3 | discriminate]].
  right. exists m3. auto.
Qed.

End Phases.

(** * The silent-running request is sent at most once per pass *)

Section Requests.

Variable env : cycle_env.

Lemma pump_not_silent_request e : pump_event e = true -> not_silent_request e = true.
Proof. unfold not_silent_request. destruct e; simpl; congruence. Qed.

Lemma sync_loop_no_request fs answers :
  forall found, emitsb not_silent_request (sync_loop env fs answers found).
Proof.
  induction answers as [|a rest IH]; intros found m r m' H; cbn [sync_loop] in H;
    destruct (negb found && negb (debug_stream (glob m)))%bool;
    try (inversion H; subst; exists []; now rewrite app_nil_r).
  - eapply emitsb_bind; [| |exact H]; [apply emitsb_emit; reflexivity|].
    intros; apply emitsb_spin.
  - eapply emitsb_bind; [| |exact H]; [apply emitsb_emit; reflexivity|].
    intros; cbv beta.
    apply emitsb_bind; [auto with emits | intros _].
    apply emitsb_bind; [auto with emits | intros _].
    apply emitsb_bind; [|intros _; apply IH].
    eapply emitsb_weaken; [apply pump_not_silent_request | apply emitsb_dispatch].
Qed.

Lemma sync_phase_no_request fs : emitsb not_silent_request (sync_phase env fs).
Proof.
  unfold sync_phase. apply emitsb_bind; [auto with emits | intro g].
  destruct (negb (sync g) && negb (debug_stream g))%bool; [|auto with emits].
  apply emitsb_bind; [apply sync_loop_no_request | intros [|]; emits_walk].
Qed.

Lemma capture_no_request fs : emitsb not_silent_request (capture env fs).
Proof. unfold capture, process. emits_walk. Qed.

Lemma no_event_nil (evs : list event) : forallb no_event evs = true -> evs = [].
Proof. destruct evs; [reflexivity | discriminate]. Qed.

Lemma not_silent_filter (evs : list event) :
  forallb not_silent_request evs = true -> List.filter is_silent_request evs = [].
Proof.
  induction evs as [|e evs IH]; cbn [forallb List.filter]; [reflexivity|].
  intro H. apply andb_prop in H as [He H]. unfold not_silent_request in He.
  destruct (is_silent_request e); [discriminate | auto].
Qed.

(** Whatever its outcome, the prediction phase logs at most one call. *)
Lemma predict_phase_one_call (fuel : nat) (m : machine) :
  exists evs,
    trace (snd (predict_phase env fuel m)) = trace m ++ evs /\
    (List.length evs <= 1)%nat.
Proof.
  unfold predict_phase. unfold bind at 1. unfold get_glob.
  destruct (debug_stream (glob m)); cbn [negb].
  2: { unfold bind at 1. unfold get_previous_ping_tick. unfold bind at 1.
       destruct (fast_forward env fuel (previous_ping_tick m) m) as [[next| |] m1] eqn:E1;
         destruct (emitsb_fast_forward env no_event fuel _ _ _ _ E1) as (e1 & T1 & N1);
         apply no_event_nil in N1; subst e1; rewrite app_nil_r in T1;
         try (exists []; cbn [snd]; rewrite T1, app_nil_r; split; [reflexivity | simpl; lia]).
       unfold bind at 1. unfold request_thruster_shutdown.
       unfold bind at 1. unfold get_system_time at 1.
       unfold bind at 1. unfold emit at 1. cbn [glob previous_ping_tick reads trace].
       unfold AbortIfNot. rewrite T1.
       destruct (silent_ok env).
       - match goal with |- context [busy_wait env fuel next ?m2] =>
           destruct (busy_wait env fuel next m2) as [r3 m3] eqn:E3;
           destruct (emitsb_busy_wait env no_event fuel _ _ _ _ E3) as (e3 & T3 & N3)
         end.
         apply no_event_nil in N3; subst e3; rewrite app_nil_r in T3.
         cbn [trace] in T3. eexists. cbn [snd]. rewrite T3.
         split; [reflexivity | simpl; lia].
       - eexists. cbn [snd trace]. split; [reflexivity | simpl; lia]. }
  exists []. unfold ret. cbn [snd]. rewrite app_nil_r. split; [reflexivity | simpl; lia].
Qed.

(** A pass sends the silent-running request at most once. *)
Lemma cycle_requests_at_most_once (fuel : nat) (m : machine) :
  (List.length (List.filter is_silent_request (trace (snd (run_cycle env fuel m)))) <= 1)%nat.
Proof.
  unfold run_cycle. rewrite cycle_unfold. cbv zeta. rewrite dispatch_spec.
  set (fs := sampling_frequency_of (params (glob (fresh m)))).
  set (m1 := mkMachine _ _ _ _).
  assert (F1 : List.filter is_silent_request (trace m1) = []).
  { apply not_silent_filter. unfold m1. cbn [trace fresh app forallb].
    apply forallb_forall. intros e He. apply pump_not_silent_request.
    pose proof (reboots_pump_events (junk env) (pump0 env) (glob (fresh m))) as Hr.
    rewrite forallb_forall in Hr. auto. }
  destruct (sync_phase env fs m1) as [r2 m2] eqn:E2.
  destruct (sync_phase_no_request fs _ _ _ E2) as (ev2 & T2 & P2).
  apply not_silent_filter in P2.
  assert (F2 : List.filter is_silent_request (trace m2) = [])
    by (rewrite T2, filter_app, F1, P2; reflexivity).
  destruct r2 as [[]| |]; cbn [snd]; try (rewrite F2; simpl; lia).
  destruct (predict_phase_one_call fuel m2) as (ev3 & T3 & L3).
  destruct (predict_phase env fuel m2) as [r3 m3] eqn:E3. cbn [snd] in T3.
  assert (F3 : (List.length (List.filter is_silent_request (trace m3)) <= 1)%nat).
  { rewrite T3, filter_app, F2. cbn [app].
    pose proof (filter_length_le is_silent_request ev3). lia. }
  destruct r3 as [[]| |]; cbn [snd]; try exact F3.
  destruct (capture env fs m3) as [r4 m4] eqn:E4.
  destruct (capture_no_request fs _ _ _ E4) as (ev4 & T4 & P4).
  apply not_silent_filter in P4. cbn [snd].
  rewrite T4, filter_app, P4, app_nil_r. exact F3.
Qed.

End Requests.

(** * The acquisition loop: claims *)

(** C1 (counterexample).  A non-debug pass in which [truncate] does not
    locate the ping is followed by a pass that makes no call of
    [acquire_sync]: the command [debug:1], served by the pump at the head of
    that pass, has switched the raw stream on. *)
Lemma C1_counterexample :
  let m1 := snd (run_cycle (env_with [] false) 100 m_boot) in
  debug_stream (glob m_boot) = false /\
  located (env_with [] false) = false /\
  existsb is_truncate (trace m1) = true /\
  sync (glob m1) = false /\
  fst (run_cycle (env_with [packet "debug:1"] true) 100 m1) = Ok tt /\
  trace (snd (run_cycle (env_with [packet "debug:1"] true) 100 m1))
  = [EvPump; EvRecord 10500096; EvNormalize 10500096; EvSendData 0 10500096] /\
  existsb is_acquire_sync
          (trace (snd (run_cycle (env_with [packet "debug:1"] true) 100 m1))) = false.
Proof. vm_compute. repeat split. Qed.

(** C1 (amended).  In a pass where [truncate] is called and returns:
    - not located: the sync bit is cleared, the pass ends normally without
      having sent a result, a correlation trace or a sample trace, no
      command served later can set the sync bit, and the next pass calls
      [acquire_sync] right after its pump provided the raw stream is still
      off once that pump has run;
    - located: the sync bit is set; when the window is not empty
      [cross_correlate] is called on it, and when it and the three sends
      succeed the pass ends with result, correlation trace and ping
      samples sent, in that order. *)
Theorem C1_truncate_outcome (env : cycle_env) (fuel : nat) (m : machine) :
  existsb is_truncate (trace (snd (run_cycle env fuel m))) = true ->
  truncate_ok env = true ->
  (located env = false ->
     fst (run_cycle env fuel m) = Ok tt /\
     sync (glob (snd (run_cycle env fuel m))) = false /\
     forallb (fun e => negb (is_transmission e))
             (trace (snd (run_cycle env fuel m))) = true /\
     forall (env2 : cycle_env) (fuel2 : nat),
       let served2 :=
         served (junk env2) (pump0 env2) (glob (snd (run_cycle env fuel m))) in
       sync served2 = false /\
       (debug_stream served2 = false ->
        exists rest,
          trace (snd (run_cycle env2 fuel2 (snd (run_cycle env fuel m))))
          = (EvPump :: reboots (junk env2) (pump0 env2)
                               (glob (snd (run_cycle env fuel m))))
            ++ EvAcquireSync
                 (duration_samples 2100
                    (sampling_frequency_of
                       (params (glob (snd (run_cycle env fuel m))))))
            :: rest)) /\
  (located env = true ->
     sync (glob (snd (run_cycle env fuel m))) = true /\
     (start_index env < end_index env ->
        In (EvCrossCorrelate (start_index env) (end_index env - start_index env)
                             (MAX_SAMPLES * 2))
           (trace (snd (run_cycle env fuel m))) /\
        (cross_correlate_ok env = true -> send_result_ok env = true ->
         send_xcorr_ok env = true -> send_data_ok env = true ->
         fst (run_cycle env fuel m) = Ok tt /\
         exists before,
           trace (snd (run_cycle env fuel m)) = before ++ located_calls env))).
Proof.
  unfold run_cycle.
  destruct (cycle_split env fuel (fresh m) eq_refl) as [[Hpre _] | (m3 & Hpre & Hcap)].
  - intros Htr _. apply pre_capture_quiet in Hpre as (Hno & _). congruence.
  - rewrite Hcap. clear Hcap.
    set (fs := sampling_frequency_of (params (glob (fresh m)))).
    intros Htr Hok.
    destruct (emitsb_run any_event (capture env fs) m3 (emitsb_capture env fs)) as [evs T].
    destruct (pre_capture_quiet _ Hpre) as (Hno3 & _ & Hquiet3).
    assert (Htr' : existsb is_truncate evs = true).
    { rewrite T, existsb_app, Hno3 in Htr. exact Htr. }
    destruct (capture_truncate env fs m3 evs T Htr' Hok) as [Hmiss Hhit].
    split; intro Hloc.
    + destruct (Hmiss Hloc) as (Hr & Hs & Hq).
      split; [exact Hr|]. split; [exact Hs|]. split.
      * rewrite T, forallb_app, Hquiet3, Hq. reflexivity.
      * intros env2 fuel2. cbv zeta.
        assert (Hs2 : sync (served (junk env2) (pump0 env2)
                                   (glob (snd (capture env fs m3)))) = false)
          by (apply served_sync; exact Hs).
        split; [exact Hs2|]. intro Hd2.
        destruct (cycle_enters_sync env2 fuel2 (fresh (snd (capture env fs m3))) Hs2 Hd2)
          as [rest Tr].
        exists rest. exact Tr.
    + destruct (Hhit Hloc) as (Hs & Hwin).
      split; [exact Hs|]. intro Hlt. destruct (Hwin Hlt) as (Hin & Hsent).
      split.
      * rewrite T. apply in_or_app. right. exact Hin.
      * intros H1 H2 H3 H4. destruct (Hsent H1 H2 H3 H4) as (Hr & before & Hb).
        split; [exact Hr|]. exists (trace m3 ++ before).
        rewrite T, Hb, app_assoc. reflexivity.
Qed.

Lemma C1_truncate_outcome_witness :
  existsb is_truncate (trace (snd (run_cycle (env_with [] false) 100 m_boot))) = true /\
  truncate_ok (env_with [] false) = true /\
  located (env_with [] false) = false /\
  sync (glob (snd (run_cycle (env_with [] false) 100 m_boot))) = false.
Proof.
  assert (Htr : existsb is_truncate
                  (trace (snd (run_cycle (env_with [] false) 100 m_boot))) = true)
    by (vm_compute; reflexivity).
  split; [exact Htr|]. split; [reflexivity|]. split; [reflexivity|].
  destruct (C1_truncate_outcome (env_with [] false) 100 m_boot Htr eq_refl) as [Hmiss _].
  destruct (Hmiss eq_refl) as (_ & Hs & _). exact Hs.
Defined.

(** C4 (counterexample).  The raw stream is on when the pass starts, yet
    the pass acquires sync, requests silent running, truncates and
    correlates: the pump at its head has served [debug:0]. *)
Lemma C4_counterexample :
  let tr := trace (snd (run_cycle (env_with [packet "debug:0"] true) 100 m_debug)) in
  debug_stream (glob m_debug) = true /\
  existsb is_acquire_sync tr = true /\
  existsb is_silent_request tr = true /\
  existsb is_truncate tr = true /\
  existsb is_cross_correlate tr = true.
Proof. vm_compute. repeat split. Qed.

(** C4 (amended).  When the raw stream is on once the pump at the head of
    the pass has served its datagrams, the pass needs no fuel (it enters no
    loop), leaves the globals as the pump left them and makes no call
    besides the pump's, [record], [normalize], [filter] and [send_data] on
    the data-stream socket: its calls are a prefix of
    record / normalise / filter if enabled / send, all on the window of
    2100 ms rounded up to whole packets, and the whole of it when every
    collaborator succeeds. *)
Theorem C4_debug_cycle (env : cycle_env) (fuel : nat) (m : machine) :
  debug_stream (served (junk env) (pump0 env) (glob m)) = true ->
  let g := served (junk env) (pump0 env) (glob m) in
  let n := record_length env (params g) true (sampling_frequency_of (params (glob m))) in
  let pumped := EvPump :: reboots (junk env) (pump0 env) (glob m) in
  fst (run_cycle env fuel m) <> Spin /\
  glob (snd (run_cycle env fuel m)) = g /\
  forallb debug_event (trace (snd (run_cycle env fuel m))) = true /\
  (exists calls more,
      trace (snd (run_cycle env fuel m)) = pumped ++ calls /\
      calls ++ more = raw_stream_calls g n) /\
  (record_ok env = true -> normalize_ok env = true ->
   (filter (params g) = true -> filter_ok env = true) ->
   send_data_ok env = true ->
   fst (run_cycle env fuel m) = Ok tt /\
   trace (snd (run_cycle env fuel m)) = pumped ++ raw_stream_calls g n).
Proof.
  intros Hd g n pumped. unfold run_cycle. rewrite cycle_unfold. cbv zeta.
  rewrite dispatch_spec.
  change (glob (fresh m)) with (glob m). change (trace (fresh m)) with (@nil event).
  cbn [app]. fold g. fold pumped.
  set (m1 := mkMachine g _ _ pumped).
  rewrite sync_phase_skipped
    by (unfold m1; cbn [glob]; unfold g; rewrite Hd; apply orb_true_r).
  rewrite predict_phase_skipped by exact Hd.
  destruct (capture_debug env (sampling_frequency_of (params (glob m))) m1 Hd)
    as (calls & more & T & Hfull & Hg & Hspin & Hall).
  change (glob m1) with g in *. change (trace m1) with pumped in *. fold n in Hfull.
  split; [exact Hspin|]. split; [exact Hg|]. split; [|split].
  - rewrite T, forallb_app. apply andb_true_intro. split.
    + unfold pumped. cbn [forallb debug_event andb].
      apply forallb_forall. intros e He.
      pose proof (reboots_pump_events (junk env) (pump0 env) (glob m)) as Hr.
      rewrite forallb_forall in Hr. specialize (Hr e He).
      destruct e; simpl in *; congruence.
    + assert (Hraw : forallb debug_event (calls ++ more) = true).
      { rewrite Hfull. unfold raw_stream_calls. destruct (filter (params g)); reflexivity. }
      rewrite forallb_app in Hraw. apply andb_prop in Hraw. tauto.
  - exists calls, more. auto.
  - intros H1 H2 H3 H4. destruct (Hall H1 H2 H3 H4) as [Hr Hmore].
    split; [exact Hr|]. rewrite T, <- Hfull, Hmore, app_nil_r. reflexivity.
Qed.

Lemma C4_debug_cycle_witness :
  debug_stream (served 0 [packet "debug:1"] initial_globals) = true /\
  forallb debug_event
          (trace (snd (run_cycle (env_with [packet "debug:1"] true) 0 m_boot))) = true.
Proof.
  split; [reflexivity|].
  pose proof (C4_debug_cycle (env_with [packet "debug:1"] true) 0 m_boot eq_refl) as H.
  cbv zeta in H. destruct H as (_ & _ & H & _). exact H.
Defined.

(** The window of a debug pass at the initial 5 MHz set-up: 2.1 s of samples
    rounded up to a whole number of 128-sample packets. *)
Example debug_window_initial :
  record_length (env_with [] true) initial_params true
                (sampling_frequency_of initial_params) = 10500096 /\
  10500096 = 82032 * 128.
Proof. vm_compute. split; reflexivity. Qed.

(** * The prediction and the pre-ping wait *)

Section Predict.

Variable env : cycle_env.

Let P := ms_to_ticks 2000.
Let D := ms_to_ticks 50.





End Predict.





Section PassToPrediction.

Variable env : cycle_env.





End PassToPrediction.







(** What the phase does on that machine: one period is added, the request
    announces the silence 1650 ms ahead for 100 ms, and the wait takes 17
    readings of the 100 ms counter. *)
Example predict_phase_run :
  predict_phase (env_with [] true) 100 m_synced
  = (Ok tt, mkMachine (glob m_synced) (previous_ping_tick m_synced) 20
                      [EvSilentRequest (le32 1650 ++ le32 100)]).
Proof. vm_compute. reflexivity. Qed.

(** The same with a previous ping a minute old: 32 periods are added, the
    test that ends the search reads 64200 ms for a ping expected at
    64900 ms, and the request, sent at 64300 ms, announces the silence
    550 ms ahead. *)
Example predict_phase_old_tick :
  predict_phase env_late 100 m_synced
  = (Ok tt, mkMachine (glob m_synced) (previous_ping_tick m_synced) 40
                      [EvSilentRequest (le32 550 ++ le32 100)]).
Proof. vm_compute. reflexivity. Qed.

(** * Sample counts *)

(** The length [go] hands to [record] is a whole number of packets, as long
    as the rounding of line 445 stays within 32 bits and the ADC register
    still holds the packet size copied into [params]. *)
Lemma record_length_aligned (env : cycle_env) (p : HydroZynqParams)
      (debug : bool) (fs : Z) :
  0 < samples_per_packet p ->
  adc_samples_per_packet env = samples_per_packet p ->
  0 <= duration_samples (if debug then 2100 else 300) fs ->
  duration_samples (if debug then 2100 else 300) fs + samples_per_packet p <= 2 ^ 32 ->
  record_length env p debug fs mod samples_per_packet p = 0.
Proof.
  intros Hspp Hadc Hlo Hhi. unfold record_length. rewrite Hadc.
  set (raw := duration_samples (if debug then 2100 else 300) fs) in *.
  set (spp := samples_per_packet p) in *.
  assert (Hclamp : (MAX_SAMPLES - MAX_SAMPLES mod spp) mod spp = 0).
  { rewrite Zminus_mod_idemp_r, Z.sub_diag. apply Z.mod_0_l. lia. }
  pose proof (Z.mod_pos_bound raw spp Hspp) as Hrem.
  destruct (raw mod spp =? 0) eqn:E.
  - apply Z.eqb_eq in E. destruct (raw >? MAX_SAMPLES); [exact Hclamp | exact E].
  - apply Z.eqb_neq in E.
    assert (Hup : (raw + (spp - raw mod spp)) mod spp = 0).
    { replace (raw + (spp - raw mod spp)) with (raw - raw mod spp + 1 * spp) by lia.
      rewrite Z.mod_add by lia.
      rewrite Zminus_mod_idemp_r, Z.sub_diag. apply Z.mod_0_l. lia. }
    unfold u32. rewrite (Z.mod_small (raw + (spp - raw mod spp))) by lia.
    destruct (_ >? MAX_SAMPLES); [exact Hclamp | exact Hup].
Qed.

(** C2 (evaluation at the failing input).  At the initial set-up (5 MHz,
    128 samples per packet) the first pass asks [acquire_sync] for 10500000
    samples, which leaves a remainder of 32 modulo the packet size; the
    length it then hands to [record], 1500032, is a whole number of
    packets. *)
Theorem C2_sync_request_unaligned :
  duration_samples 2100 (sampling_frequency_of initial_params) = 10500000 /\
  In (EvAcquireSync 10500000)
     (trace (snd (run_cycle (env_with [] true) 100 m_boot))) /\
  10500000 mod samples_per_packet initial_params = 32 /\
  In (EvRecord 1500032) (trace (snd (run_cycle (env_with [] true) 100 m_boot))) /\
  1500032 mod samples_per_packet initial_params = 0.
Proof. vm_compute. intuition. Qed.

(** * The tick of the located ping *)

(** At 5 MHz the offset of line 494 counts 66 ticks per sample where a
    sample lasts 66.6667: it stays within one sample period exactly up to
    sample 99. *)
Lemma ping_offset_accuracy (start : Z) :
  0 <= start < 2 ^ 25 ->
  (within_one_sample_period (ping_offset start 5000000) start 5000000 <-> start <= 99).
Proof.
  intro H. unfold within_one_sample_period, ping_offset.
  change (u32 (CPU_CLOCK_HZ / 5000000)) with 66.
  change CPU_CLOCK_HZ with 333333500.
  unfold u32. rewrite Z.mod_small by lia. lia.
Qed.

(** C3 (evaluation at the failing input).  With the ping located at sample
    1000 of a capture begun at tick 1000000500, the code stores
    1000066500, that is 66000 ticks after the start, while sample 1000 was
    taken 66666.7 ticks after it: ten sample periods later. *)
Theorem C3_offset_drift :
  previous_ping_tick (snd (run_cycle (env_with [] true) 100 m_boot))
  = clock_100ms 20 + ping_offset 1000 5000000 /\
  ping_offset 1000 5000000 = 66000 /\
  1000 * CPU_CLOCK_HZ / 5000000 = 66666 /\
  ~ within_one_sample_period (ping_offset 1000 5000000) 1000 5000000.
Proof.
  split; [vm_compute; reflexivity|]. split; [reflexivity|]. split; [reflexivity|].
  rewrite ping_offset_accuracy; lia.
Qed.

(** * The capacity given to [cross_correlate] *)

(** Every call of [cross_correlate] is given the capacity
    [MAX_SAMPLES * 2]. *)
Lemma cross_correlate_capacity (env : cycle_env) (fuel : nat) (m : machine)
      (start len cap : Z) :
  In (EvCrossCorrelate start len cap) (trace (snd (run_cycle env fuel m))) ->
  cap = MAX_SAMPLES * 2.
Proof.
  assert (Hpre : forall e, pre_capture_event e = true -> capacity_as_coded e = true)
    by (intros []; simpl; congruence).
  assert (Hcycle : emitsb capacity_as_coded (cycle env fuel)).
  { unfold cycle. apply emitsb_bind; [auto with emits | intro g].
    apply emitsb_bind; [|intros _].
    { apply (emitsb_weaken pre_capture_event); [exact Hpre|].
      eapply emitsb_weaken; [apply pump_pre_capture | apply emitsb_dispatch]. }
    apply emitsb_bind; [|intros _].
    { apply (emitsb_weaken pre_capture_event); [exact Hpre | apply emitsb_sync_phase]. }
    apply emitsb_bind; [|intros _].
    { apply (emitsb_weaken pre_capture_event); [exact Hpre | apply emitsb_predict_phase]. }
    unfold capture, process.
    repeat match goal with
           | |- emitsb _ (bind _ _) => apply emitsb_bind; [|intros; cbv beta]
           | |- emitsb _ (if ?b then _ else _) => destruct b
           | |- emitsb _ (emit _) => apply emitsb_emit; reflexivity
           | |- emitsb _ _ => solve [auto with emits]
           end. }
  unfold run_cycle. destruct (cycle env fuel (fresh m)) as [r m'] eqn:E.
  destruct (Hcycle _ _ _ E) as (evs & T & Hall). cbn [snd]. rewrite T. cbn [fresh trace app].
  intro Hin. rewrite forallb_forall in Hall. specialize (Hall _ Hin).
  apply Z.eqb_eq in Hall. exact Hall.
Qed.

(** C9 (evaluation at the failing input).  In a pass that locates the ping,
    [cross_correlate] is called on the array [correlations], of 50000
    entries, with a capacity of 198000000. *)
Theorem C9_capacity_exceeds_buffer :
  In (EvCrossCorrelate 1000 1000 198000000)
     (trace (snd (run_cycle (env_with [] true) 100 m_boot))) /\
  MAX_SAMPLES * 2 = 198000000 /\
  CORRELATIONS_LEN = 50000 /\
  CORRELATIONS_LEN < MAX_SAMPLES * 2.
Proof. vm_compute. intuition. Qed.

(** * Further properties of the command handler *)

Section FirstToken.

Lemma first_token_split (s : list ascii) :
  forallb token_char (first_token s) = true /\
  exists tail,
    s = first_token s ++ tail /\
    (tail = [] \/ exists sep rest, tail = sep :: rest /\ token_char sep = false).
Proof.
  induction s as [|c s IH]; cbn [first_token].
  - split; [reflexivity|]. exists []. auto.
  - destruct (token_char c) eqn:Hc.
    + destruct IH as (Hall & tail & Hs & Htail). split.
      * cbn [forallb]. rewrite Hc, Hall. reflexivity.
      * exists tail. split; [cbn [app]; congruence | exact Htail].
    + split; [reflexivity|]. exists (c :: s). split; [reflexivity|].
      right. exists c, s. auto.
Qed.

Lemma first_token_app (tok tail : list ascii) :
  forallb token_char tok = true ->
  tail = [] \/ (exists sep rest, tail = sep :: rest /\ token_char sep = false) ->
  first_token (tok ++ tail) = tok.
Proof.
  intros Htok Htail. induction tok as [|c tok IH]; cbn [app first_token].
  - destruct Htail as [-> | (sep & rest & -> & Hsep)]; [reflexivity|].
    cbn [first_token]. rewrite Hsep. reflexivity.
  - cbn [forallb] in Htok. apply andb_prop in Htok as [Hc Htok].
    rewrite Hc. f_equal. auto.
Qed.

(** A token either has no colon or splits at its first one. *)
Lemma token_key_value (tok : list ascii) :
  forallb token_char tok = true ->
  forallb key_char tok = true \/
  exists key val,
    tok = key ++ ":"%char :: val /\
    forallb key_char key = true /\ forallb token_char val = true.
Proof.
  induction tok as [|c tok IH]; cbn [forallb]; intro H; [left; reflexivity|].
  apply andb_prop in H as [Hc Htok].
  destruct (Ascii.eqb c ":") eqn:Hcolon.
  - right. apply Ascii.eqb_eq in Hcolon. subst c. exists [], tok. auto.
  - destruct (IH Htok) as [Hbare | (key & val & -> & Hkey & Hval)].
    + left. unfold key_char at 1. rewrite Hc, Hcolon, Hbare. reflexivity.
    + right. exists (c :: key), val. split; [reflexivity|]. split; [|exact Hval].
      cbn [forallb]. unfold key_char at 1. rewrite Hc, Hcolon, Hkey. reflexivity.
Qed.

Lemma split_tokens_sep (tok : list ascii) :
  forall (done rest : list ascii) (sep : ascii) (n max_pairs last_start : nat),
    forallb token_char tok = true -> token_char sep = false ->
    (List.length tok < n)%nat -> (0 < max_pairs)%nat ->
    split_tokens n (List.length done) max_pairs (done ++ tok ++ sep :: rest)
                 last_start []
    = (done ++ tok ++ NUL :: rest, [last_start]).
Proof.
  induction tok as [|c tok IH];
    intros done rest sep n max_pairs last_start Hplain Hsep Hn Hmax;
    (destruct n as [|n]; [simpl in Hn; lia|]); simpl split_tokens;
    replace (0 <? max_pairs)%nat with true by (symmetry; apply Nat.ltb_lt; lia).
  - simpl app. rewrite char_at_app.
    unfold token_char in Hsep. apply negb_false_iff in Hsep. rewrite Hsep.
    rewrite poke_app, char_at_app. reflexivity.
  - simpl in Hplain. apply andb_prop in Hplain as [Hc Hplain].
    apply token_char_inv in Hc as [Hcomma Hnul].
    simpl app. rewrite char_at_app, Hcomma, Hnul. simpl.
    rewrite char_at_app, Hnul.
    replace (done ++ c :: tok ++ sep :: rest)
      with ((done ++ [c]) ++ tok ++ sep :: rest)
      by (rewrite <- app_assoc; reflexivity).
    replace (S (List.length done)) with (List.length (done ++ [c]))
      by (rewrite length_app; simpl; lia).
    rewrite (IH _ _ _ _ _ _ Hplain Hsep); auto; [|simpl in Hn; lia].
    rewrite <- app_assoc. reflexivity.
Qed.

Lemma cstr_at_value_cut (key val rest : list ascii) :
  forallb token_char val = true ->
  cstr_at (key ++ NUL :: val ++ NUL :: rest) (S (List.length key)) = val.
Proof.
  intro H.
  replace (key ++ NUL :: val ++ NUL :: rest) with ((key ++ [NUL]) ++ val ++ NUL :: rest)
    by (rewrite <- app_assoc; reflexivity).
  replace (S (List.length key)) with (List.length (key ++ [NUL]))
    by (rewrite length_app; simpl; lia).
  rewrite cstr_at_app, cstr_app by exact H. simpl. apply app_nil_r.
Qed.

(** [process_pair] reads the buffer only through the two C strings the
    pair points to. *)
Lemma process_pair_strings (junk : Z) (d1 d2 : list ascii) (kv : KeyValuePair)
      (st : globals * bool) :
  cstr_at d1 (key kv) = cstr_at d2 (key kv) ->
  cstr_at d1 (value kv) = cstr_at d2 (value kv) ->
  process_pair junk d1 kv st = process_pair junk d2 kv st.
Proof.
  intros Hk Hv. unfold process_pair, strcmp_eq. rewrite Hk, Hv. reflexivity.
Qed.

Lemma cstr_at_key (key rest : list ascii) :
  forallb token_char key = true -> cstr_at (key ++ NUL :: rest) 0 = key.
Proof.
  intro H. unfold cstr_at, skipn. rewrite cstr_app by exact H.
  simpl. apply app_nil_r.
Qed.

(** What follows the first comma or NUL of a packet has no effect. *)
Lemma receive_command_cut (junk : Z) (g : globals) (tok rest : list ascii)
      (sep : ascii) :
  forallb token_char tok = true -> token_char sep = false ->
  (List.length (tok ++ sep :: rest) <= 1023)%nat ->
  receive_command junk g (tok ++ sep :: rest) = receive_command junk g tok.
Proof.
  intros Htok Hsep Hlen.
  assert (Hlen' : (List.length tok <= 1023)%nat)
    by (rewrite length_app in Hlen; lia).
  unfold receive_command.
  replace (Z.of_nat (List.length (tok ++ sep :: rest)) >? DATA_SIZE - 1) with false
    by (symmetry; rewrite Z.gtb_ltb; apply Z.ltb_ge; unfold DATA_SIZE; lia).
  replace (Z.of_nat (List.length tok) >? DATA_SIZE - 1) with false
    by (symmetry; rewrite Z.gtb_ltb; apply Z.ltb_ge; unfold DATA_SIZE; lia).
  unfold parse_packet.
  pose proof (split_tokens_sep tok [] (rest ++ [NUL]) sep
                (List.length (tok ++ sep :: rest) + 1) 10 0 Htok Hsep) as Hl.
  simpl app in Hl. change (List.length (@nil ascii)) with 0%nat in Hl.
  rewrite <- app_assoc. simpl app.
  rewrite Hl by (rewrite ?length_app; simpl; lia).
  pose proof (split_tokens_single tok [] (List.length tok + 1) 10 0 Htok
                                  ltac:(lia) ltac:(lia)) as Hr.
  simpl app in Hr. change (List.length (@nil ascii)) with 0%nat in Hr.
  rewrite Hr. cbn [split_values].
  destruct (token_key_value tok Htok) as [Hbare | (key & val & -> & Hkey & Hval)].
  - pose proof (find_colon_none tok [] (rest ++ [NUL])
                  (strlen (tok ++ NUL :: rest ++ [NUL]) 0)) as Hf.
    simpl app in Hf. change (List.length (@nil ascii)) with 0%nat in Hf.
    rewrite Hf by exact Hbare.
    pose proof (find_colon_none tok [] [] (strlen (tok ++ [NUL]) 0)) as Hf'.
    simpl app in Hf'. change (List.length (@nil ascii)) with 0%nat in Hf'.
    rewrite Hf' by exact Hbare. reflexivity.
  - pose proof (find_colon_found key [] (val ++ NUL :: rest ++ [NUL])
                  (strlen ((key ++ ":"%char :: val) ++ NUL :: rest ++ [NUL]) 0)) as Hf.
    simpl app in Hf. change (List.length (@nil ascii)) with 0%nat in Hf.
    rewrite <- !app_assoc. simpl app.
    rewrite <- app_assoc in Hf. simpl app in Hf.
    rewrite Hf; [|exact Hkey|].
    2:{ pose proof (strlen_exact (key ++ ":"%char :: val) (rest ++ [NUL]) Htok) as Hs.
        rewrite <- app_assoc in Hs. simpl app in Hs. rewrite Hs.
        rewrite length_app. simpl. lia. }
    pose proof (find_colon_found key [] (val ++ [NUL])
                  (strlen ((key ++ ":"%char :: val) ++ [NUL]) 0)) as Hf'.
    simpl app in Hf'. change (List.length (@nil ascii)) with 0%nat in Hf'.
    rewrite <- app_assoc in Hf'. simpl app in Hf'.
    rewrite Hf'; [|exact Hkey|].
    2:{ pose proof (strlen_exact (key ++ ":"%char :: val) [] Htok) as Hs.
        rewrite <- app_assoc in Hs. simpl app in Hs. rewrite Hs.
        rewrite length_app. simpl. lia. }
    cbn [process_pairs].
    rewrite (process_pair_strings junk (key ++ NUL :: val ++ NUL :: rest ++ [NUL])
                                  (key ++ NUL :: val ++ [NUL])).
    + reflexivity.
    + cbn [Parse.key]. rewrite !cstr_at_key by (apply key_char_token_char, Hkey).
      reflexivity.
    + cbn [value]. rewrite cstr_at_value_cut, cstr_at_value by exact Hval. reflexivity.
Qed.

(** The handler sees a packet through its first token alone. *)
Lemma receive_command_first_token (junk : Z) (g : globals) (payload : list ascii) :
  (List.length payload <= 1023)%nat ->
  receive_command junk g payload = receive_command junk g (first_token payload).
Proof.
  intro Hlen. destruct (first_token_split payload) as (Htok & tail & Hs & Htail).
  destruct Htail as [-> | (sep & rest & -> & Hsep)].
  - rewrite app_nil_r in Hs. congruence.
  - rewrite Hs at 1. apply receive_command_cut; auto. rewrite <- Hs. exact Hlen.
Qed.

Lemma first_token_length (s : list ascii) :
  (List.length (first_token s) <= List.length s)%nat.
Proof.
  induction s as [|c s IH]; cbn [first_token]; [lia|].
  destruct (token_char c); simpl; lia.
Qed.

End FirstToken.

Lemma receive_command_keyed (junk : Z) (g : globals) (payload key val : list ascii) :
  (List.length payload <= 1023)%nat ->
  first_token payload = key ++ ":"%char :: val ->
  forallb key_char key = true ->
  forallb token_char val = true /\
  receive_command junk g payload
  = process_pairs junk (key ++ NUL :: val ++ [NUL])
                  [mkPair 0 (S (List.length key))] (g, false).
Proof.
  intros Hlen Hfirst Hkey.
  destruct (first_token_split payload) as (Htok & _).
  rewrite Hfirst, forallb_app in Htok. apply andb_prop in Htok as [_ Htok].
  cbn [forallb] in Htok. apply andb_prop in Htok as [_ Hval].
  split; [exact Hval|].
  rewrite receive_command_first_token by exact Hlen. rewrite Hfirst.
  apply receive_command_single; auto.
  pose proof (first_token_length payload) as Hl. rewrite Hfirst in Hl. lia.
Qed.

Lemma no_colon_key_chars (s : list ascii) :
  forallb token_char s = true ->
  (forallb key_char s = true <-> existsb (Ascii.eqb ":") s = false).
Proof.
  induction s as [|c s IH]; cbn [forallb existsb]; intro H; [tauto|].
  apply andb_prop in H as [Hc Hs]. specialize (IH Hs).
  unfold key_char at 1. rewrite Hc. cbn [andb].
  rewrite (Ascii.eqb_sym ":" c).
  destruct (Ascii.eqb c ":"); cbn [negb andb orb]; [split; discriminate | exact IH].
Qed.

Lemma sscanf_u_no_match (c : ascii) (rest : list ascii) :
  isspace c = false -> Ascii.eqb c "-" = false -> Ascii.eqb c "+" = false ->
  digit_of c = None ->
  sscanf_u (c :: rest) = ScanNoMatch.
Proof.
  intros Hsp Hm Hp Hd. unfold sscanf_u. cbn [skip_space]. rewrite Hsp, Hm, Hp.
  cbn [scan_digits]. rewrite Hd. reflexivity.
Qed.

Lemma process_pair_frame (junk : Z) (data : list ascii) (kv : KeyValuePair)
      (g g' : globals) (rb rb' : bool) :
  process_pair junk data kv (g, rb) = Some (g', rb') ->
  sample_clk_div (params g') = sample_clk_div (params g) /\
  samples_per_packet (params g') = samples_per_packet (params g) /\
  (sync g' = true -> sync g = true).
Proof.
  unfold process_pair. intros H.
  repeat match type of H with
         | (if ?b then _ else _) = _ => destruct b
         | match ?x with _ => _ end = _ => destruct x
         end;
    inversion H; subst; simpl; auto; repeat split; auto; discriminate.
Qed.

Lemma process_pairs_frame (junk : Z) (data : list ascii) (pairs : list KeyValuePair) :
  forall g rb,
    sample_clk_div (params (after (process_pairs junk data pairs (g, rb))))
    = sample_clk_div (params g) /\
    samples_per_packet (params (after (process_pairs junk data pairs (g, rb))))
    = samples_per_packet (params g) /\
    (sync (after (process_pairs junk data pairs (g, rb))) = true -> sync g = true).
Proof.
  induction pairs as [|kv rest IH]; intros g rb; cbn [process_pairs]; [simpl; auto|].
  destruct (process_pair junk data kv (g, rb)) as [[g' rb']|] eqn:E; [|simpl; auto].
  destruct (process_pair_frame _ _ _ _ _ _ _ E) as (F1 & F2 & F3).
  destruct (IH g' rb') as (I1 & I2 & I3).
  rewrite I1, I2, F1, F2. auto.
Qed.

Lemma process_pair_again (junk : Z) (data : list ascii) (kv : KeyValuePair)
      (g : globals) :
  match process_pair junk data kv (g, false) with
  | Some (g', rb') => process_pair junk data kv (g', false) = Some (g', rb')
  | None => True
  end.
Proof.
  unfold process_pair.
  repeat match goal with
         | |- context [if ?b then _ else _] => destruct b
         | |- context [match sscanf_u ?x with _ => _ end] => destruct (sscanf_u x)
         end; try exact I; reflexivity.
Qed.

(** X1.  Whatever the buffer, its length and the capacity of the pair
    array, [parse_packet] either fails or reports at most one pair: its
    first loop stops at the first comma or NUL. *)
Theorem parse_packet_at_most_one_pair (data : list ascii) (len max_pairs : nat) :
  match parse_packet data len max_pairs with
  | Some (_, pairs) => (List.length pairs <= 1)%nat
  | None => True
  end.
Proof.
  destruct (parse_packet data len max_pairs) as [[data' pairs]|] eqn:E; [|exact I].
  eapply parse_packet_single_pair; eauto.
Qed.

(** X2.  Two packets that fit the buffer and agree up to their first comma
    or NUL have the same effect on every state: what follows the first
    token is never looked at. *)
Theorem handler_reads_first_token_only (junk : Z) (g : globals)
        (p1 p2 : list ascii) :
  (List.length p1 <= 1023)%nat -> (List.length p2 <= 1023)%nat ->
  first_token p1 = first_token p2 ->
  receive_command junk g p1 = receive_command junk g p2.
Proof.
  intros H1 H2 Heq.
  rewrite (receive_command_first_token junk g p1 H1).
  rewrite (receive_command_first_token junk g p2 H2).
  rewrite Heq. reflexivity.
Qed.

Lemma handler_reads_first_token_only_witness :
  (List.length (packet "debug:1,filter:1,junk") <= 1023)%nat /\
  (List.length (packet "debug:1") <= 1023)%nat /\
  first_token (packet "debug:1,filter:1,junk") = first_token (packet "debug:1") /\
  receive_command 0 initial_globals (packet "debug:1,filter:1,junk")
  = receive_command 0 initial_globals (packet "debug:1").
Proof.
  split; [simpl; lia|]. split; [simpl; lia|]. split; [reflexivity|].
  apply (handler_reads_first_token_only 0 initial_globals); simpl; try lia; reflexivity.
Defined.

(** X3.  A packet that fits the buffer is reported as a parse failure
    exactly when its first token has no colon (the empty packet included),
    and then no state changes and no reset is requested. *)
Theorem parse_failure_iff_no_colon (junk : Z) (g : globals) (payload : list ascii) :
  (List.length payload <= 1023)%nat ->
  (status (receive_command junk g payload) = ParseFailed
   <-> existsb (Ascii.eqb ":") (first_token payload) = false) /\
  (existsb (Ascii.eqb ":") (first_token payload) = false ->
   receive_command junk g payload = mkResult ParseFailed g false).
Proof.
  intro Hlen.
  destruct (first_token_split payload) as (Htok & _).
  pose proof (first_token_length payload) as Hl.
  rewrite (receive_command_first_token junk g payload Hlen).
  rewrite <- (no_colon_key_chars _ Htok).
  assert (Hbare : forallb key_char (first_token payload) = true ->
                  receive_command junk g (first_token payload)
                  = mkResult ParseFailed g false).
  { intro Hk. rewrite <- (app_nil_r (first_token payload)).
    apply receive_command_bare_first_token; auto. rewrite app_nil_r. lia. }
  split; [|exact Hbare]. split.
  - intro Hst. destruct (token_key_value _ Htok) as [Hk | (key & val & E & Hkey & Hval)];
      [exact Hk|]. exfalso.
    rewrite E in Hst, Hl. rewrite receive_command_single in Hst by (auto; lia).
    destruct (process_pairs_status junk (key ++ NUL :: val ++ [NUL])
                [mkPair 0 (S (List.length key))] (g, false)) as [H|H];
      rewrite H in Hst; discriminate.
  - intro Hk. rewrite (Hbare Hk). reflexivity.
Qed.

Lemma parse_failure_iff_no_colon_witness :
  (List.length (packet "threshold,debug:1") <= 1023)%nat /\
  receive_command 0 initial_globals (packet "threshold,debug:1")
  = mkResult ParseFailed initial_globals false.
Proof.
  split; [simpl; lia|].
  apply (parse_failure_iff_no_colon 0 initial_globals (packet "threshold,debug:1"));
    [simpl; lia | reflexivity].
Defined.

(** X4.  A packet whose first token has a key that is none of the six the
    handler knows is accepted and changes nothing, whatever its value. *)
Theorem unknown_key_ignored (junk : Z) (g : globals) (payload key val : list ascii) :
  (List.length payload <= 1023)%nat ->
  first_token payload = key ++ ":"%char :: val ->
  forallb key_char key = true ->
  recognised key = false ->
  receive_command junk g payload = mkResult Handled g false.
Proof.
  intros Hlen Hfirst Hkey Hrec.
  destruct (receive_command_keyed junk g payload key val Hlen Hfirst Hkey) as [Hval ->].
  unfold recognised, command_keys in Hrec. cbn [existsb] in Hrec.
  repeat (apply orb_false_elim in Hrec as [?H Hrec]).
  cbn [process_pairs]. unfold process_pair. cbn [Parse.key value].
  rewrite !strcmp_eq_key by (apply key_char_token_char, Hkey).
  repeat match goal with H : chars_eqb key _ = false |- _ => rewrite H; clear H end.
  reflexivity.
Qed.

Lemma unknown_key_ignored_witness :
  (List.length (packet "gain:3,threshold:7") <= 1023)%nat /\
  first_token (packet "gain:3,threshold:7") = packet "gain" ++ ":"%char :: packet "3" /\
  forallb key_char (packet "gain") = true /\
  recognised (packet "gain") = false /\
  receive_command 0 initial_globals (packet "gain:3,threshold:7")
  = mkResult Handled initial_globals false.
Proof.
  split; [simpl; lia|]. split; [reflexivity|]. split; [reflexivity|].
  split; [reflexivity|].
  apply (unknown_key_ignored 0 initial_globals _ (packet "gain") (packet "3"));
    [simpl; lia | reflexivity | reflexivity | reflexivity].
Defined.

(** X5.  A packet whose first token is [reset:] followed by any value, the
    empty one included, calls the reset and changes no parameter: the value
    is never parsed. *)
Theorem reset_requests_reboot (junk : Z) (g : globals) (payload val : list ascii) :
  (List.length payload <= 1023)%nat ->
  first_token payload = packet "reset" ++ ":"%char :: val ->
  receive_command junk g payload = mkResult Handled g true.
Proof.
  intros Hlen Hfirst.
  destruct (receive_command_keyed junk g payload _ val Hlen Hfirst eq_refl) as [Hval ->].
  cbn [process_pairs]. unfold process_pair. cbn [Parse.key value].
  rewrite !strcmp_eq_key by reflexivity. reflexivity.
Qed.

Lemma reset_requests_reboot_witness :
  (List.length (packet "reset:now") <= 1023)%nat /\
  first_token (packet "reset:now") = packet "reset" ++ ":"%char :: packet "now" /\
  receive_command 0 initial_globals (packet "reset:now")
  = mkResult Handled initial_globals true.
Proof.
  split; [simpl; lia|]. split; [reflexivity|].
  apply (reset_requests_reboot 0 initial_globals _ (packet "now"));
    [simpl; lia | reflexivity].
Defined.

Lemma decimal_value_scanned (junk : Z) (g : globals) (payload key : list ascii) (v : Z) :
  (List.length payload <= 1023)%nat ->
  first_token payload = key ++ ":"%char :: decimal v ->
  forallb key_char key = true ->
  0 <= v < 2 ^ 32 ->
  receive_command junk g payload
  = process_pairs junk (key ++ NUL :: decimal v ++ [NUL])
                  [mkPair 0 (S (List.length key))] (g, false) /\
  sscanf_u (cstr_at (key ++ NUL :: decimal v ++ [NUL]) (S (List.length key)))
  = ScanOK v.
Proof.
  intros Hlen Hfirst Hkey Hv.
  destruct (receive_command_keyed junk g payload key _ Hlen Hfirst Hkey) as [Hval ->].
  split; [reflexivity|].
  rewrite cstr_at_value by exact Hval. apply sscanf_u_decimal, Hv.
Qed.

(** X6.  A packet whose first token is [threshold:v], with [v] a decimal
    numeral that fits [unsigned int], sets [ping_threshold] to [v] and
    clears the sync bit, changes no other cell and requests no reset,
    whatever follows the token. *)
Theorem threshold_first_token (junk : Z) (g : globals) (payload : list ascii) (v : Z) :
  (List.length payload <= 1023)%nat ->
  first_token payload = packet "threshold" ++ ":"%char :: decimal v ->
  0 <= v < 2 ^ 32 ->
  receive_command junk g payload
  = mkResult Handled
             (with_sync false (with_params (set_ping_threshold v (params g)) g)) false.
Proof.
  intros Hlen Hfirst Hv.
  destruct (decimal_value_scanned junk g payload _ v Hlen Hfirst eq_refl Hv) as [-> Hscan].
  cbn [process_pairs]. unfold process_pair. cbn [Parse.key value].
  rewrite !strcmp_eq_key by reflexivity. rewrite Hscan. reflexivity.
Qed.

Lemma threshold_first_token_witness :
  (List.length (packet "threshold:2000,debug:1") <= 1023)%nat /\
  first_token (packet "threshold:2000,debug:1")
  = packet "threshold" ++ ":"%char :: decimal 2000 /\
  0 <= 2000 < 2 ^ 32 /\
  receive_command 0 initial_globals (packet "threshold:2000,debug:1")
  = mkResult Handled
      (with_sync false
         (with_params (set_ping_threshold 2000 (params initial_globals)) initial_globals))
      false.
Proof.
  split; [simpl; lia|]. split; [reflexivity|]. split; [lia|].
  apply (threshold_first_token 0 initial_globals _ 2000);
    [simpl; lia | reflexivity | lia].
Defined.

(** X7.  The flags take any number, not only 0 and 1: a first token
    [debug:v] switches [debug_stream] off when [v] is 0 and on for every
    other [v] that fits [unsigned int], and a first token [filter:v] does the
    same to [filter]; neither touches any other cell, the sync bit
    included. *)
Theorem flag_tokens (junk : Z) (g : globals) (payload : list ascii) (v : Z) :
  (List.length payload <= 1023)%nat ->
  0 <= v < 2 ^ 32 ->
  (first_token payload = packet "debug" ++ ":"%char :: decimal v ->
   receive_command junk g payload
   = mkResult Handled (with_debug_stream (negb (v =? 0)) g) false) /\
  (first_token payload = packet "filter" ++ ":"%char :: decimal v ->
   receive_command junk g payload
   = mkResult Handled (with_params (set_filter (negb (v =? 0)) (params g)) g) false).
Proof.
  intros Hlen Hv. split; intro Hfirst;
    destruct (decimal_value_scanned junk g payload _ v Hlen Hfirst eq_refl Hv)
      as [-> Hscan];
    cbn [process_pairs]; unfold process_pair; cbn [Parse.key value];
    rewrite !strcmp_eq_key by reflexivity; rewrite Hscan; reflexivity.
Qed.

Lemma flag_tokens_witness :
  (List.length (packet "debug:2") <= 1023)%nat /\
  0 <= 2 < 2 ^ 32 /\
  first_token (packet "debug:2") = packet "debug" ++ ":"%char :: decimal 2 /\
  debug_stream (after (receive_command 0 initial_globals (packet "debug:2"))) = true.
Proof.
  split; [simpl; lia|]. split; [lia|]. split; [reflexivity|].
  destruct (flag_tokens 0 initial_globals (packet "debug:2") 2) as [Hdebug _];
    [simpl; lia | lia |].
  rewrite (Hdebug eq_refl). reflexivity.
Defined.

(** X8.  When the first token has one of the five keys whose value is
    scanned and the value starts with a character that is neither white
    space, a sign nor a digit, the handler returns at the failed [sscanf]:
    no cell changes and no reset is requested. *)
Theorem unparseable_value_rejected (junk : Z) (g : globals)
        (payload key val : list ascii) (c : ascii) :
  (List.length payload <= 1023)%nat ->
  In key (map packet numeric_keys) ->
  first_token payload = key ++ ":"%char :: c :: val ->
  isspace c = false -> Ascii.eqb c "-" = false -> Ascii.eqb c "+" = false ->
  digit_of c = None ->
  receive_command junk g payload = mkResult ValueRejected g false.
Proof.
  intros Hlen Hin Hfirst Hsp Hm Hp Hd.
  assert (Hkey : forallb key_char key = true).
  { cbn in Hin. repeat (destruct Hin as [<- | Hin]; [reflexivity|]). contradiction. }
  destruct (receive_command_keyed junk g payload key _ Hlen Hfirst Hkey) as [Hval ->].
  cbn [process_pairs]. unfold process_pair. cbn [Parse.key value].
  rewrite !strcmp_eq_key by (apply key_char_token_char, Hkey).
  rewrite cstr_at_value by exact Hval.
  rewrite (sscanf_u_no_match c val Hsp Hm Hp Hd).
  cbn in Hin.
  repeat (destruct Hin as [<- | Hin]; [reflexivity|]). contradiction.
Qed.

Lemma unparseable_value_rejected_witness :
  (List.length (packet "threshold:high") <= 1023)%nat /\
  In (packet "threshold") (map packet numeric_keys) /\
  receive_command 0 initial_globals (packet "threshold:high")
  = mkResult ValueRejected initial_globals false.
Proof.
  split; [simpl; lia|]. split; [left; reflexivity|].
  apply (unparseable_value_rejected 0 initial_globals _ (packet "threshold")
                                    (packet "igh") "h"%char);
    [simpl; lia | left; reflexivity | reflexivity | reflexivity | reflexivity
     | reflexivity | reflexivity].
Defined.

(** X9.  For every packet, over-length ones included, the handler leaves
    [sample_clk_div] and [samples_per_packet] as they were, and the sync bit
    is set afterwards only if it was set before: no command changes the
    sampling set-up or establishes sync. *)
Theorem handler_frame (junk : Z) (g : globals) (payload : list ascii) :
  sample_clk_div (params (after (receive_command junk g payload)))
  = sample_clk_div (params g) /\
  samples_per_packet (params (after (receive_command junk g payload)))
  = samples_per_packet (params g) /\
  (sync (after (receive_command junk g payload)) = true -> sync g = true).
Proof.
  unfold receive_command.
  destruct (Z.of_nat (List.length payload) >? DATA_SIZE - 1); [simpl; auto|].
  destruct (parse_packet _ _ _) as [[d pairs]|]; [|simpl; auto].
  apply process_pairs_frame.
Qed.

Lemma chars_eqb_eq (a b : list ascii) : chars_eqb a b = true -> a = b.
Proof.
  revert b; induction a as [|x a IH]; intros [|y b] H; simpl in H;
    try discriminate; [reflexivity|].
  apply andb_prop in H as [Hx H]. apply Ascii.eqb_eq in Hx. f_equal; auto.
Qed.

Lemma skip_space_nil (s : list ascii) :
  skip_space s = [] -> forallb isspace s = true.
Proof.
  induction s as [|c s IH]; simpl; [reflexivity|].
  destruct (isspace c); [exact IH | discriminate].
Qed.

(** [sscanf] reports the end of input only on a blank string. *)
Lemma sscanf_u_eof (s : list ascii) :
  sscanf_u s = ScanEOF -> forallb isspace s = true.
Proof.
  unfold sscanf_u. destruct (skip_space s) as [|c rest] eqn:E.
  - intros _. apply skip_space_nil, E.
  - destruct (if Ascii.eqb c "-" then _ else _) as [neg body].
    destruct (scan_digits body 0 false) as [v [|]]; discriminate.
Qed.

(** The indeterminate local is read only by the [threshold] branch, and
    there only when [sscanf] stores nothing and still passes the test. *)
Lemma process_pair_junk (j1 j2 : Z) (data : list ascii) (kv : KeyValuePair)
      (st : globals * bool) :
  strcmp_eq data (key kv) "threshold" = false \/
  sscanf_u (cstr_at data (value kv)) <> ScanEOF ->
  process_pair j1 data kv st = process_pair j2 data kv st.
Proof.
  intros H. unfold process_pair. destruct st as [g rb].
  destruct (strcmp_eq data (key kv) "threshold") eqn:Ht; [|reflexivity].
  destruct H as [H | H]; [discriminate H|].
  destruct (sscanf_u (cstr_at data (value kv))); [contradiction | reflexivity..].
Qed.

(** X10.  Serving the same packet a second time changes nothing more,
    whatever indeterminate value each of the two calls finds in its local
    [threshold]: the second result is the first one, state, status and
    reset request alike.  The one packet left out is [threshold:] with an
    empty or blank value as first token, where each delivery stores the
    indeterminate value it reads. *)
Theorem handler_idempotent (j1 j2 : Z) (g : globals) (payload : list ascii) :
  (forall val, first_token payload = packet "threshold" ++ ":"%char :: val ->
               forallb isspace val = false) ->
  receive_command j2 (after (receive_command j1 g payload)) payload
  = receive_command j1 g payload.
Proof.
  intro Hnb.
  destruct (le_lt_dec (List.length payload) 1023) as [Hlen | Hlong].
  - destruct (first_token_split payload) as (Htok & _).
    pose proof (first_token_length payload) as Hl.
    destruct (token_key_value _ Htok) as [Hk | (key & val & E & Hkey & Hval)].
    + assert (Hbare : forall j g0, receive_command j g0 payload
                                   = mkResult ParseFailed g0 false).
      { intros j g0. rewrite (receive_command_first_token j g0 payload Hlen).
        rewrite <- (app_nil_r (first_token payload)).
        apply receive_command_bare_first_token; auto. rewrite app_nil_r. lia. }
      rewrite !Hbare. reflexivity.
    + destruct (receive_command_keyed j1 g payload key val Hlen E Hkey) as [_ ->].
      set (d := key ++ NUL :: val ++ [NUL]).
      set (kv := mkPair 0 (S (List.length key))).
      assert (Hfree : forall st, process_pair j2 d kv st = process_pair j1 d kv st).
      { intro st. apply process_pair_junk. unfold d, kv. cbn [Parse.key value].
        rewrite strcmp_eq_key by (apply key_char_token_char, Hkey).
        destruct (chars_eqb key (list_ascii_of_string "threshold")) eqn:Ht;
          [right | left; reflexivity].
        apply chars_eqb_eq in Ht. subst key.
        rewrite cstr_at_value by exact Hval. intro Heof.
        apply sscanf_u_eof in Heof. rewrite (Hnb val E) in Heof. discriminate Heof. }
      cbn [process_pairs].
      pose proof (process_pair_again j1 d kv g) as Hagain.
      destruct (process_pair j1 d kv (g, false)) as [[g' rb']|] eqn:E1;
        cbn [after fst snd].
      * destruct (receive_command_keyed j2 g' payload key val Hlen E Hkey) as [_ ->].
        fold d kv. cbn [process_pairs]. rewrite Hfree, Hagain. reflexivity.
      * destruct (receive_command_keyed j2 g payload key val Hlen E Hkey) as [_ ->].
        fold d kv. cbn [process_pairs]. rewrite Hfree, E1. reflexivity.
  - unfold receive_command.
    replace (Z.of_nat (List.length payload) >? DATA_SIZE - 1) with true
      by (symmetry; apply Z.gtb_lt; unfold DATA_SIZE; lia).
    reflexivity.
Qed.

Lemma handler_idempotent_witness :
  (forall val, first_token (packet "threshold:5,debug:1")
               = packet "threshold" ++ ":"%char :: val ->
               forallb isspace val = false) /\
  receive_command 9 (after (receive_command 7 initial_globals
                                            (packet "threshold:5,debug:1")))
                  (packet "threshold:5,debug:1")
  = receive_command 7 initial_globals (packet "threshold:5,debug:1").
Proof.
  assert (H : forall val, first_token (packet "threshold:5,debug:1")
                          = packet "threshold" ++ ":"%char :: val ->
                          forallb isspace val = false).
  { intros val E. vm_compute in E. injection E as <-. reflexivity. }
  split; [exact H | exact (handler_idempotent 7 9 initial_globals _ H)].
Defined.

(** The packet left out: two deliveries of [threshold:] that find 7 and then
    9 in the local store 7 and then 9. *)
Example threshold_blank_twice :
  ping_threshold (params (after (receive_command 7 initial_globals
                                                 (packet "threshold:")))) = 7 /\
  ping_threshold
    (params (after (receive_command 9
                      (after (receive_command 7 initial_globals (packet "threshold:")))
                      (packet "threshold:")))) = 9.
Proof. split; reflexivity. Qed.

Lemma sscanf_u_blank (val : list ascii) :
  forallb isspace val = true -> sscanf_u val = ScanEOF.
Proof.
  intro H. unfold sscanf_u.
  assert (Hskip : skip_space val = []).
  { induction val as [|c val IH]; [reflexivity|].
    cbn [forallb] in H. apply andb_prop in H as [Hc H].
    cbn [skip_space]. rewrite Hc. auto. }
  rewrite Hskip. reflexivity.
Qed.

(** X11.  A value that is empty or made of white space only is not
    rejected: [sscanf] returns [EOF], which the test of its result lets
    through, and the local that was to receive the number keeps its initial
    0.  So [filter:] and [debug:] switch their flag off, and the two
    duration keys store [micros_to_ticks 0]. *)
Theorem blank_value_reads_as_zero (junk : Z) (g : globals) (payload val : list ascii) :
  (List.length payload <= 1023)%nat ->
  forallb isspace val = true ->
  (first_token payload = packet "filter" ++ ":"%char :: val ->
   receive_command junk g payload
   = mkResult Handled (with_params (set_filter false (params g)) g) false) /\
  (first_token payload = packet "debug" ++ ":"%char :: val ->
   receive_command junk g payload
   = mkResult Handled (with_debug_stream false g) false) /\
  (first_token payload = packet "pre_ping_duration_us" ++ ":"%char :: val ->
   receive_command junk g payload
   = mkResult Handled
       (with_params (set_pre_ping_duration (micros_to_ticks 0) (params g)) g) false) /\
  (first_token payload = packet "post_ping_duration_us" ++ ":"%char :: val ->
   receive_command junk g payload
   = mkResult Handled
       (with_params (set_post_ping_duration (micros_to_ticks 0) (params g)) g) false).
Proof.
  intros Hlen Hblank.
  repeat split; intro Hfirst;
    destruct (receive_command_keyed junk g payload _ val Hlen Hfirst eq_refl)
      as [Hval ->];
    cbn [process_pairs]; unfold process_pair; cbn [Parse.key value];
    rewrite !strcmp_eq_key by reflexivity;
    rewrite cstr_at_value by exact Hval;
    rewrite (sscanf_u_blank val Hblank); reflexivity.
Qed.

Lemma blank_value_reads_as_zero_witness :
  (List.length (packet "debug:") <= 1023)%nat /\
  forallb isspace [] = true /\
  receive_command 0 (with_debug_stream true initial_globals) (packet "debug:")
  = mkResult Handled (with_debug_stream false (with_debug_stream true initial_globals))
             false.
Proof.
  split; [simpl; lia|]. split; [reflexivity|].
  destruct (blank_value_reads_as_zero 0 (with_debug_stream true initial_globals)
              (packet "debug:") []) as (_ & Hdebug & _);
    [simpl; lia | reflexivity |].
  apply Hdebug. reflexivity.
Defined.

(** * Further properties of the acquisition loop *)

(** X12.  The length handed to [record] never exceeds [MAX_SAMPLES], the
    size of the array [samples], as soon as the packet size read from the
    ADC is positive; and when that size is the one in [params] and the
    rounding of line 445 stays within 32 bits, the length is a whole number
    of packets. *)
Theorem record_length_fits (env : cycle_env) (p : HydroZynqParams)
        (debug : bool) (fs : Z) :
  0 < adc_samples_per_packet env ->
  record_length env p debug fs <= MAX_SAMPLES /\
  (adc_samples_per_packet env = samples_per_packet p ->
   0 <= duration_samples (if debug then 2100 else 300) fs ->
   duration_samples (if debug then 2100 else 300) fs + samples_per_packet p <= 2 ^ 32 ->
   record_length env p debug fs mod samples_per_packet p = 0).
Proof.
  intro Hadc. split.
  - unfold record_length.
    match goal with |- (if ?c then _ else _) <= _ => destruct c eqn:E end.
    + pose proof (Z.mod_pos_bound MAX_SAMPLES (adc_samples_per_packet env) Hadc). lia.
    + rewrite Z.gtb_ltb in E. apply Z.ltb_ge in E. exact E.
  - intros Heq Hlo Hhi. apply record_length_aligned; auto. rewrite <- Heq. exact Hadc.
Qed.

Lemma record_length_fits_witness :
  0 < adc_samples_per_packet (env_with [] true) /\
  record_length (env_with [] true) initial_params false 5000000 <= MAX_SAMPLES.
Proof.
  split; [reflexivity|].
  apply (record_length_fits (env_with [] true) initial_params false 5000000).
  reflexivity.
Defined.

Section MorePasses.

Variable env : cycle_env.

Lemma zlist_eqb_eq (a b : list Z) : zlist_eqb a b = true -> a = b.
Proof.
  revert b; induction a as [|x a IH]; intros [|y b] H; simpl in H;
    try discriminate; [reflexivity|].
  apply andb_prop in H as [Hx H]. apply Z.eqb_eq in Hx. f_equal; auto.
Qed.

Lemma not_silent_request_shape e : not_silent_request e = true -> request_shape e = true.
Proof. destruct e; simpl; auto; discriminate. Qed.

Lemma predict_phase_request_shape (fuel : nat) :
  emitsb request_shape (predict_phase env fuel).
Proof.
  unfold predict_phase. apply emitsb_bind; [auto with emits | intro g].
  destruct (negb (debug_stream g)); [|auto with emits].
  apply emitsb_bind; [auto with emits | intro previous].
  apply emitsb_bind; [apply emitsb_fast_forward | intro next].
  apply emitsb_bind; [|intros _; apply emitsb_busy_wait].
  unfold request_thruster_shutdown.
  apply emitsb_bind; [auto with emits | intro now].
  apply emitsb_bind; [apply emitsb_emit; reflexivity | intros _; auto with emits].
Qed.

Lemma cycle_request_shape (fuel : nat) : emitsb request_shape (cycle env fuel).
Proof.
  unfold cycle. apply emitsb_bind; [auto with emits | intro g].
  apply emitsb_bind; [|intros _].
  { apply (emitsb_weaken not_silent_request); [apply not_silent_request_shape|].
    eapply emitsb_weaken; [apply pump_not_silent_request | apply emitsb_dispatch]. }
  apply emitsb_bind; [|intros _].
  { apply (emitsb_weaken not_silent_request); [apply not_silent_request_shape|].
    apply sync_phase_no_request. }
  apply emitsb_bind; [apply predict_phase_request_shape | intros _].
  apply (emitsb_weaken not_silent_request); [apply not_silent_request_shape|].
  apply capture_no_request.
Qed.

(** X13.  Whatever the environment, the fuel and the outcome, a pass sends
    at most one silent-running request, and every request it sends is 8
    bytes long and ends with the [int32] 100: the announced duration never
    depends on the clock or on the parameters. *)
Theorem silent_request_shape (fuel : nat) (m : machine) :
  (List.length (List.filter is_silent_request (trace (snd (run_cycle env fuel m))))
   <= 1)%nat /\
  forall msg,
    In (EvSilentRequest msg) (trace (snd (run_cycle env fuel m))) ->
    List.length msg = 8%nat /\ skipn 4 msg = le32 100.
Proof.
  split; [apply cycle_requests_at_most_once|].
  intros msg Hin. unfold run_cycle in Hin.
  destruct (cycle env fuel (fresh m)) as [r m'] eqn:E.
  destruct (cycle_request_shape fuel _ _ _ E) as (evs & T & Hall).
  cbn [snd] in Hin. rewrite T in Hin. cbn [fresh trace app] in Hin.
  rewrite forallb_forall in Hall. specialize (Hall _ Hin). cbn [request_shape] in Hall.
  apply andb_prop in Hall as [Hlen Htail].
  apply Nat.eqb_eq in Hlen. apply zlist_eqb_eq in Htail. auto.
Qed.

Lemma sync_loop_exit (fs : Z) (answers : list sync_answer) :
  forall found m b m',
    sync_loop env fs answers found m = (Ok b, m') ->
    (b || debug_stream (glob m'))%bool = true.
Proof.
  induction answers as [|a rest IH]; intros found m b m' H; cbn [sync_loop] in H;
    destruct (negb found && negb (debug_stream (glob m)))%bool eqn:Hc;
    try (inversion H; subst;
         destruct b, (debug_stream (glob m')); simpl in *; congruence).
  unfold bind at 1 in H. unfold emit in H.
    unfold bind at 1 in H. unfold AbortIfNot in H.
    destruct (sa_ok a); [|discriminate H].
    unfold bind at 1 in H. unfold put_previous_ping_tick in H.
    unfold bind at 1 in H. rewrite dispatch_spec in H.
    eapply IH; exact H.
Qed.

(** X14.  When the sync phase of lines 372-410 ends normally, the machine
    is in sync or in debug mode: the phase that predicts the next ping and
    requests silence, which runs only out of debug mode, never runs
    unsynchronised. *)
Theorem sync_phase_establishes_sync (fs : Z) (m : machine) :
  match sync_phase env fs m with
  | (Ok _, m') => (sync (glob m') || debug_stream (glob m'))%bool = true
  | _ => True
  end.
Proof.
  unfold sync_phase. unfold bind at 1. unfold get_glob.
  destruct (negb (sync (glob m)) && negb (debug_stream (glob m)))%bool eqn:Hc.
  - unfold bind.
    destruct (sync_loop env fs (sync_answers env) false m) as [[found| |] m1] eqn:E;
      try exact I.
    pose proof (sync_loop_exit _ _ _ _ _ _ E) as Hexit.
    destruct found; unfold get_glob, put_glob, ret; cbn [glob sync with_sync].
    + reflexivity.
    + cbn [orb] in Hexit. rewrite Hexit. apply orb_true_r.
  - unfold ret. destruct (sync (glob m)), (debug_stream (glob m)); simpl in *; congruence.
Qed.

(** X15.  When the first [acquire_sync] of the sync phase succeeds and finds
    the ping, the phase ends in sync whatever the pump of line 397 serves
    right after it: a [threshold] command served there changes
    [ping_threshold] but its clearing of the sync bit is overwritten by
    line 408, so the tick found with the old threshold stands. *)
Theorem sync_set_after_in_loop_pump (fs : Z) (m : machine) (a : sync_answer)
        (rest : list sync_answer) :
  sync_answers env = a :: rest ->
  sa_ok a = true -> sa_found a = true ->
  sync (glob m) = false -> debug_stream (glob m) = false ->
  sync_phase env fs m
  = (Ok tt,
     mkMachine (with_sync true (served (junk env) (sa_pump a) (glob m)))
               (sa_tick a) (reads m)
               (trace m ++ EvAcquireSync (duration_samples 2100 fs)
                        :: EvPump :: reboots (junk env) (sa_pump a) (glob m))).
Proof.
  intros Hans Hok Hfound Hs Hd.
  unfold sync_phase. unfold bind at 1. unfold get_glob. rewrite Hs, Hd. cbn [negb andb].
  rewrite Hans. unfold bind at 1. cbn [sync_loop]. rewrite Hd. cbn [negb andb].
  unfold bind at 1. unfold emit.
  unfold bind at 1. unfold AbortIfNot. rewrite Hok.
  unfold bind at 1. unfold put_previous_ping_tick.
  unfold bind at 1. rewrite dispatch_spec.
  cbn [glob previous_ping_tick reads trace]. rewrite Hfound.
  assert (Hstop : forall m2, sync_loop env fs rest true m2 = (Ok true, m2))
    by (intro m2; destruct rest; reflexivity).
  rewrite Hstop. unfold bind, get_glob, put_glob.
  cbn [glob previous_ping_tick reads trace]. rewrite <- app_assoc. reflexivity.
Qed.

End MorePasses.

Lemma sync_set_after_in_loop_pump_witness :
  let env := mkEnv clock_100ms 0 SAMPLES_PER_PACKET []
                   [mkSyncAnswer true true (ms_to_ticks 900) [packet "threshold:9"]]
                   true true true true true true 1000 2000 true 4001 true true true in
  sync (glob m_boot) = false /\ debug_stream (glob m_boot) = false /\
  fst (sync_phase env 5000000 m_boot) = Ok tt /\
  sync (glob (snd (sync_phase env 5000000 m_boot))) = true /\
  ping_threshold (params (glob (snd (sync_phase env 5000000 m_boot)))) = 9.
Proof.
  cbv zeta. split; [reflexivity|]. split; [reflexivity|].
  rewrite (sync_set_after_in_loop_pump
             (mkEnv clock_100ms 0 SAMPLES_PER_PACKET []
                    [mkSyncAnswer true true (ms_to_ticks 900) [packet "threshold:9"]]
                    true true true true true true 1000 2000 true 4001 true true true)
             5000000 m_boot
             (mkSyncAnswer true true (ms_to_ticks 900) [packet "threshold:9"]) []
             eq_refl eq_refl eq_refl eq_refl eq_refl).
  split; [reflexivity|]. split; reflexivity.
Defined.

(** * The offset of the ping in ticks *)

(** X16.  As long as the product fits 32 bits, the offset added at line 494
    is never later than the tick at which sample [start] was taken, and it
    falls short of it by [start * (CPU_CLOCK_HZ mod sampling_frequency) /
    sampling_frequency] ticks: the stored tick is exact only when the
    sampling frequency divides the CPU clock or the ping starts the
    window. *)
Theorem ping_offset_shortfall (start fs : Z) :
  0 < fs -> 0 <= start -> start * (CPU_CLOCK_HZ / fs) < 2 ^ 32 ->
  ping_offset start fs <= start * CPU_CLOCK_HZ / fs /\
  start * CPU_CLOCK_HZ / fs - ping_offset start fs
  = start * (CPU_CLOCK_HZ mod fs) / fs.
Proof.
  intros Hfs Hstart Hfit. unfold ping_offset.
  assert (Hq : 0 <= CPU_CLOCK_HZ / fs < 2 ^ 32).
  { split; [apply Z.div_pos; [vm_compute; discriminate | lia]|].
    apply Z.le_lt_trans with CPU_CLOCK_HZ; [|reflexivity].
    apply Z.div_le_upper_bound; [lia|].
    change CPU_CLOCK_HZ with 333333500. nia. }
  assert (Hu : u32 (CPU_CLOCK_HZ / fs) = CPU_CLOCK_HZ / fs)
    by (unfold u32; apply Z.mod_small; exact Hq).
  rewrite Hu.
  assert (Hp : u32 (start * (CPU_CLOCK_HZ / fs)) = start * (CPU_CLOCK_HZ / fs))
    by (unfold u32; apply Z.mod_small; split; [apply Z.mul_nonneg_nonneg; lia | exact Hfit]).
  rewrite Hp.
  assert (Hsplit : start * CPU_CLOCK_HZ
                   = start * (CPU_CLOCK_HZ / fs) * fs + start * (CPU_CLOCK_HZ mod fs)).
  { rewrite (Z.div_mod CPU_CLOCK_HZ fs) at 1 by lia. ring. }
  assert (Hdiv : start * CPU_CLOCK_HZ / fs
                 = start * (CPU_CLOCK_HZ / fs) + start * (CPU_CLOCK_HZ mod fs) / fs).
  { rewrite Hsplit. rewrite Z.div_add_l by lia. reflexivity. }
  assert (Hr : 0 <= start * (CPU_CLOCK_HZ mod fs) / fs).
  { apply Z.div_pos; [|lia]. apply Z.mul_nonneg_nonneg; [lia|].
    apply Z.mod_pos_bound; lia. }
  rewrite Hdiv. split; lia.
Qed.

Lemma ping_offset_shortfall_witness :
  ping_offset 30000 5000000 <= 30000 * CPU_CLOCK_HZ / 5000000 /\
  30000 * CPU_CLOCK_HZ / 5000000 - ping_offset 30000 5000000
  = 30000 * (CPU_CLOCK_HZ mod 5000000) / 5000000.
Proof.
  apply (ping_offset_shortfall 30000 5000000); [lia | lia | vm_compute; reflexivity].
Defined.

(** * What a pass of the loop leaves alone *)

Section Keeps.

Variable env : cycle_env.
Variable R : globals -> globals -> Prop.
Hypothesis R_refl : forall g, R g g.
Hypothesis R_trans : forall g1 g2 g3, R g1 g2 -> R g2 g3 -> R g1 g3.
Hypothesis R_sync : forall b g, R g (with_sync b g).

Lemma keeps_ret {A} (a : A) : keeps R (ret a).
Proof. intros m r m' H. inversion H; subst. apply R_refl. Qed.

Lemma keeps_bind {A B} (c : M A) (k : A -> M B) :
  keeps R c -> (forall a, keeps R (k a)) -> keeps R (bind c k).
Proof.
  intros Hc Hk m r m' H. unfold bind in H.
  destruct (c m) as [[a| |] m1] eqn:E.
  - eapply R_trans; [exact (Hc _ _ _ E) | exact (Hk _ _ _ _ H)].
  - inversion H; subst. exact (Hc _ _ _ E).
  - inversion H; subst. exact (Hc _ _ _ E).
Qed.

Lemma keeps_spin {A} : keeps R (@spin A).
Proof. intros m r m' H. inversion H; subst. apply R_refl. Qed.

Lemma keeps_AbortIfNot b : keeps R (AbortIfNot b).
Proof. intros m r m' H. unfold AbortIfNot in H. destruct b; inversion H; subst; apply R_refl. Qed.

Lemma keeps_emit e : keeps R (emit e).
Proof. intros m r m' H. inversion H; subst. apply R_refl. Qed.

Lemma keeps_get_glob : keeps R get_glob.
Proof. intros m r m' H. inversion H; subst. apply R_refl. Qed.

Lemma keeps_get_previous_ping_tick : keeps R get_previous_ping_tick.
Proof. intros m r m' H. inversion H; subst. apply R_refl. Qed.

Lemma keeps_put_previous_ping_tick t : keeps R (put_previous_ping_tick t).
Proof. intros m r m' H. inversion H; subst. apply R_refl. Qed.

Lemma keeps_get_system_time : keeps R (get_system_time env).
Proof. intros m r m' H. inversion H; subst. apply R_refl. Qed.

Lemma keeps_set_sync {B} (b : bool) (k : globals -> M B) :
  (forall g, keeps R (k g)) ->
  keeps R (bind get_glob (fun g => bind (put_glob (with_sync b g)) (fun _ => k g))).
Proof.
  intros Hk m r m' H. unfold bind, get_glob, put_glob in H.
  apply Hk in H. cbn [glob] in H.
  eapply R_trans; [apply (R_sync b) | exact H].
Qed.

Lemma keeps_dispatch pkts :
  (forall g, R g (served (junk env) pkts g)) ->
  keeps R (dispatch_network_stack env pkts).
Proof.
  intros Hs m r m' H. rewrite dispatch_spec in H. inversion H; subst.
  cbn [glob]. apply Hs.
Qed.

Lemma keeps_sync_loop fs (answers : list sync_answer) :
  Forall (fun a => forall g, R g (served (junk env) (sa_pump a) g)) answers ->
  forall found, keeps R (sync_loop env fs answers found).
Proof.
  induction 1 as [|a rest Ha Hrest IH]; intros found m r m' H; cbn [sync_loop] in H;
    destruct (negb found && negb (debug_stream (glob m)))%bool;
    try (inversion H; subst; apply R_refl).
  revert H. apply keeps_bind; [apply keeps_emit | intros _].
  apply keeps_bind; [apply keeps_AbortIfNot | intros _].
  apply keeps_bind; [apply keeps_put_previous_ping_tick | intros _].
  apply keeps_bind; [apply keeps_dispatch; exact Ha | intros _].
  apply IH.
Qed.

Lemma keeps_sync_phase fs :
  Forall (fun a => forall g, R g (served (junk env) (sa_pump a) g)) (sync_answers env) ->
  keeps R (sync_phase env fs).
Proof.
  intros Hans. unfold sync_phase.
  apply keeps_bind; [apply keeps_get_glob | intro g].
  destruct (negb (sync g) && negb (debug_stream g))%bool; [|apply keeps_ret].
  apply keeps_bind; [apply keeps_sync_loop; exact Hans | intros [|]]; [|apply keeps_ret].
  intros m r m' H. unfold bind, get_glob, put_glob in H. inversion H; subst.
  cbn [glob]. apply R_sync.
Qed.

Lemma keeps_fast_forward fuel : forall next, keeps R (fast_forward env fuel next).
Proof.
  induction fuel as [|fuel IH]; intros next; cbn [fast_forward]; [apply keeps_spin|].
  apply keeps_bind; [apply keeps_get_system_time | intro now].
  destruct (now >? _); [apply IH | apply keeps_ret].
Qed.

Lemma keeps_busy_wait fuel next : keeps R (busy_wait env fuel next).
Proof.
  induction fuel as [|fuel IH]; cbn [busy_wait]; [apply keeps_spin|].
  apply keeps_bind; [apply keeps_get_system_time | intro now].
  destruct (now <? _); [apply IH | apply keeps_ret].
Qed.

Lemma keeps_predict_phase fuel : keeps R (predict_phase env fuel).
Proof.
  unfold predict_phase. apply keeps_bind; [apply keeps_get_glob | intro g].
  destruct (negb (debug_stream g)); [|apply keeps_ret].
  apply keeps_bind; [apply keeps_get_previous_ping_tick | intro previous].
  apply keeps_bind; [apply keeps_fast_forward | intro next].
  apply keeps_bind; [|intros _; apply keeps_busy_wait].
  unfold request_thruster_shutdown.
  apply keeps_bind; [apply keeps_get_system_time | intro now].
  apply keeps_bind; [apply keeps_emit | intros _; apply keeps_AbortIfNot].
Qed.

Ltac keeps_step :=
  match goal with
  | |- keeps _ (bind _ _) => apply keeps_bind; [|intro]
  | |- keeps _ (emit _) => apply keeps_emit
  | |- keeps _ (AbortIfNot _) => apply keeps_AbortIfNot
  | |- keeps _ (get_system_time _) => apply keeps_get_system_time
  | |- keeps _ (put_previous_ping_tick _) => apply keeps_put_previous_ping_tick
  | |- keeps _ (ret _) => apply keeps_ret
  | |- keeps _ get_glob => apply keeps_get_glob
  | |- keeps _ (if ?b then _ else _) => destruct b
  end.

Lemma keeps_process n fs t : keeps R (process env n fs t).
Proof.
  unfold process.
  apply keeps_bind; [apply keeps_emit | intros _].
  apply keeps_bind; [apply keeps_AbortIfNot | intros _].
  apply keeps_set_sync. intros g. cbv zeta. repeat keeps_step.
Qed.

Lemma keeps_capture fs : keeps R (capture env fs).
Proof.
  unfold capture. apply keeps_bind; [apply keeps_get_glob | intro g]. cbv zeta.
  repeat (apply keeps_bind; [solve [repeat keeps_step] | intro]).
  destruct (debug_stream g); [repeat keeps_step | apply keeps_process].
Qed.

Lemma keeps_cycle fuel :
  (forall g, R g (served (junk env) (pump0 env) g)) ->
  Forall (fun a => forall g, R g (served (junk env) (sa_pump a) g)) (sync_answers env) ->
  keeps R (cycle env fuel).
Proof.
  intros Hp Hans. unfold cycle.
  apply keeps_bind; [apply keeps_get_glob | intro g]. cbv zeta.
  apply keeps_bind; [apply keeps_dispatch; exact Hp | intros _].
  apply keeps_bind; [apply keeps_sync_phase; exact Hans | intros _].
  apply keeps_bind; [apply keeps_predict_phase | intros _].
  apply keeps_capture.
Qed.

End Keeps.

Lemma same_settings_refl g : same_settings g g.
Proof. split; reflexivity. Qed.

Lemma same_settings_trans g1 g2 g3 :
  same_settings g1 g2 -> same_settings g2 g3 -> same_settings g1 g3.
Proof. intros [A B] [C D]. split; congruence. Qed.

Lemma same_settings_sync b g : same_settings g (with_sync b g).
Proof. split; reflexivity. Qed.

Lemma same_sampling_refl g : same_sampling g g.
Proof. split; reflexivity. Qed.

Lemma same_sampling_trans g1 g2 g3 :
  same_sampling g1 g2 -> same_sampling g2 g3 -> same_sampling g1 g3.
Proof. intros [A B] [C D]. split; congruence. Qed.

Lemma same_sampling_sync b g : same_sampling g (with_sync b g).
Proof. split; reflexivity. Qed.

Lemma same_sampling_served junk pkts : forall g, same_sampling g (served junk pkts g).
Proof.
  induction pkts as [|p rest IH]; intro g; cbn [served]; [apply same_sampling_refl|].
  eapply same_sampling_trans; [|apply IH].
  unfold receive_command.
  destruct (Z.of_nat (List.length p) >? DATA_SIZE - 1); [apply same_sampling_refl|].
  destruct (parse_packet _ _ _) as [[d pairs]|]; [|apply same_sampling_refl].
  destruct (process_pairs_frame junk d pairs g false) as (F1 & F2 & _).
  split; assumption.
Qed.

(** X17.  A pass during which no datagram arrives leaves the parameters and
    the raw-stream flag as they were, whatever its outcome: outside the
    command handler the loop writes only the sync bit and
    [previous_ping_tick]. *)
Theorem quiet_pass_keeps_settings (env : cycle_env) (fuel : nat) (m : machine) :
  no_datagram env ->
  same_settings (glob m) (glob (snd (run_cycle env fuel m))).
Proof.
  intros [Hp Hans]. unfold run_cycle.
  destruct (cycle env fuel (fresh m)) as [r m'] eqn:E. cbn [snd].
  change (glob m) with (glob (fresh m)).
  refine (keeps_cycle env same_settings same_settings_refl same_settings_trans
            same_settings_sync fuel _ _ _ _ _ E).
  - intro g. rewrite Hp. apply same_settings_refl.
  - eapply Forall_impl; [|exact Hans].
    intros a Ha g. cbv beta in Ha. rewrite Ha. apply same_settings_refl.
Qed.

Lemma quiet_pass_keeps_settings_witness :
  no_datagram (env_with [] true) /\
  same_settings (glob m_boot) (glob (snd (run_cycle (env_with [] true) 100 m_boot))).
Proof.
  assert (H : no_datagram (env_with [] true))
    by (split; [reflexivity | repeat constructor]).
  split; [exact H | exact (quiet_pass_keeps_settings _ 100 m_boot H)].
Defined.

Lemma run_cycle_sampling (env : cycle_env) (fuel : nat) (m : machine) :
  same_sampling (glob m) (glob (snd (run_cycle env fuel m))).
Proof.
  unfold run_cycle.
  destruct (cycle env fuel (fresh m)) as [r m'] eqn:E. cbn [snd].
  change (glob m) with (glob (fresh m)).
  refine (keeps_cycle env same_sampling same_sampling_refl same_sampling_trans
            same_sampling_sync fuel _ _ _ _ _ E).
  - intro g. apply same_sampling_served.
  - apply Forall_forall. intros a _ g. apply same_sampling_served.
Qed.

(** X18.  Over any number of passes, whatever commands arrive and however
    the run ends, [sample_clk_div] and [samples_per_packet] keep the values
    [go] installed before the loop, so the sampling frequency computed at
    line 362 is the same in every pass. *)
Theorem sampling_setup_invariant (envs : list (cycle_env * nat)) (m : machine) :
  same_sampling (glob m) (glob (snd (run_passes envs m))) /\
  sampling_frequency_of (params (glob (snd (run_passes envs m))))
  = sampling_frequency_of (params (glob m)).
Proof.
  assert (H : forall envs m, same_sampling (glob m) (glob (snd (run_passes envs m)))).
  { clear. induction envs as [|[env fuel] rest IH]; intro m; cbn [run_passes].
    - apply same_sampling_refl.
    - pose proof (run_cycle_sampling env fuel m) as Hc.
      destruct (run_cycle env fuel m) as [[[]| |] m1]; cbn [snd] in *; auto.
      eapply same_sampling_trans; [exact Hc | apply IH]. }
  split; [apply H|].
  destruct (H envs m) as [H1 _]. unfold sampling_frequency_of. now rewrite H1.
Qed.

(** * When a result is sent *)

Section Results.

Variable env : cycle_env.

Lemma emitsb_abort_false p {B} (k : unit -> M B) :
  emitsb p (bind (AbortIfNot false) k).
Proof.
  intros m r m' H. unfold bind, AbortIfNot in H. inversion H; subst.
  exists []. now rewrite app_nil_r.
Qed.

Lemma pre_capture_not_result e : pre_capture_event e = true -> not_result e = true.
Proof. destruct e; cbv; congruence. Qed.

Lemma capture_no_result fs :
  located_ok env = false -> emitsb not_result (capture env fs).
Proof.
  intro H. unfold located_ok in H. unfold capture.
  apply emitsb_bind; [auto with emits | intro g]. cbv zeta.
  apply emitsb_bind; [auto with emits | intro t0].
  apply emitsb_bind; [apply emitsb_emit; reflexivity | intros _].
  destruct (record_ok env); [|apply emitsb_abort_false].
  apply emitsb_bind; [auto with emits | intros _].
  apply emitsb_bind; [apply emitsb_emit; reflexivity | intros _].
  destruct (normalize_ok env); [|apply emitsb_abort_false].
  apply emitsb_bind; [auto with emits | intros _].
  apply emitsb_bind; [emits_walk | intros _].
  destruct (debug_stream g); [emits_walk|].
  unfold process.
  apply emitsb_bind; [apply emitsb_emit; reflexivity | intros _].
  destruct (truncate_ok env); [|apply emitsb_abort_false].
  apply emitsb_bind; [auto with emits | intros _].
  apply emitsb_bind; [auto with emits | intro g1].
  apply emitsb_bind; [auto with emits | intros _].
  destruct (located env); cbn [negb]; [|auto with emits]. cbv zeta.
  apply emitsb_bind; [auto with emits | intros _].
  destruct (end_index env >? start_index env); [|apply emitsb_abort_false].
  apply emitsb_bind; [auto with emits | intros _].
  apply emitsb_bind; [auto with emits | intros _].
  apply emitsb_bind; [apply emitsb_emit; reflexivity | intros _].
  destruct (cross_correlate_ok env); [discriminate H | apply emitsb_abort_false].
Qed.

Lemma cycle_no_result fuel :
  located_ok env = false -> emitsb not_result (cycle env fuel).
Proof.
  intro H. unfold cycle. apply emitsb_bind; [auto with emits | intro g]. cbv zeta.
  apply emitsb_bind; [|intros _].
  { apply (emitsb_weaken pre_capture_event); [apply pre_capture_not_result|].
    eapply emitsb_weaken; [apply pump_pre_capture | apply emitsb_dispatch]. }
  apply emitsb_bind; [|intros _].
  { apply (emitsb_weaken pre_capture_event); [apply pre_capture_not_result|].
    apply emitsb_sync_phase. }
  apply emitsb_bind; [|intros _].
  { apply (emitsb_weaken pre_capture_event); [apply pre_capture_not_result|].
    apply emitsb_predict_phase. }
  apply capture_no_result, H.
Qed.

(** X19.  A pass sends a result packet or a correlation trace only when
    [record], [normalize], [truncate] and [cross_correlate] have all
    succeeded in it and [truncate] has located a ping with
    [end_index > start_index]: no result is ever reported for a window in
    which no ping was found. *)
Theorem result_only_when_located (fuel : nat) (m : machine) (e : event) :
  In e (trace (snd (run_cycle env fuel m))) -> is_result e = true ->
  record_ok env = true /\ normalize_ok env = true /\ truncate_ok env = true /\
  located env = true /\ start_index env < end_index env /\
  cross_correlate_ok env = true.
Proof.
  intros Hin He.
  destruct (located_ok env) eqn:Hok.
  - unfold located_ok in Hok.
    repeat (apply andb_prop in Hok; destruct Hok as [Hok ?]).
    repeat split; try assumption. apply Z.gtb_lt. assumption.
  - exfalso. unfold run_cycle in Hin.
    destruct (cycle env fuel (fresh m)) as [r m'] eqn:E.
    destruct (cycle_no_result fuel Hok _ _ _ E) as (evs & T & Hall).
    cbn [snd] in Hin. rewrite T in Hin. cbn [fresh trace app] in Hin.
    rewrite forallb_forall in Hall. specialize (Hall _ Hin).
    unfold not_result in Hall. rewrite He in Hall. discriminate Hall.
Qed.

(** X20.  A [threshold] command served by the pump at the head of a pass
    out of debug mode makes that very pass re-acquire: its first call after
    the pump is [acquire_sync] on the 2100 ms window, even when the machine
    entered the pass in sync. *)
Theorem threshold_forces_reacquisition (fuel : nat) (m : machine) (v : Z) :
  0 <= v < 2 ^ 32 ->
  pump0 env = [packet "threshold:" ++ decimal v] ->
  debug_stream (glob m) = false ->
  exists rest,
    trace (snd (run_cycle env fuel m))
    = EvPump
      :: EvAcquireSync (duration_samples 2100 (sampling_frequency_of (params (glob m))))
      :: rest.
Proof.
  intros Hv Hp Hd.
  assert (Hserved : served (junk env) (pump0 env) (glob (fresh m))
                    = with_sync false
                        (with_params (set_ping_threshold v (params (glob m))) (glob m))).
  { rewrite Hp. cbn [served]. rewrite threshold_single_token by exact Hv. reflexivity. }
  assert (Hreb : reboots (junk env) (pump0 env) (glob (fresh m)) = []).
  { rewrite Hp. cbn [reboots]. rewrite threshold_single_token by exact Hv. reflexivity. }
  destruct (cycle_enters_sync env fuel (fresh m)) as [rest T].
  - rewrite Hserved. reflexivity.
  - rewrite Hserved. exact Hd.
  - exists rest. unfold run_cycle. rewrite T, Hreb. reflexivity.
Qed.

End Results.

Lemma result_only_when_located_witness :
  In EvSendResult (trace (snd (run_cycle (env_with [] true) 100 m_boot))) /\
  located (env_with [] true) = true /\
  start_index (env_with [] true) < end_index (env_with [] true).
Proof.
  assert (Hin : In EvSendResult (trace (snd (run_cycle (env_with [] true) 100 m_boot))))
    by (vm_compute; tauto).
  split; [exact Hin|].
  destruct (result_only_when_located (env_with [] true) 100 m_boot EvSendResult
              Hin eq_refl) as (_ & _ & _ & Hl & Hse & _).
  split; assumption.
Defined.

Lemma threshold_forces_reacquisition_witness :
  debug_stream (glob m_synced) = false /\ sync (glob m_synced) = true /\
  exists rest,
    trace (snd (run_cycle (env_with [packet "threshold:9"] true) 100 m_synced))
    = EvPump :: EvAcquireSync 10500000 :: rest.
Proof.
  split; [reflexivity|]. split; [reflexivity|].
  exact (threshold_forces_reacquisition (env_with [packet "threshold:9"] true) 100
           m_synced 9 ltac:(lia) eq_refl eq_refl).
Defined.
